(** * RLM: the orchestration loop, its sandbox and the paragraph splitter

    A shallow embedding of [backend/rlm/base.py], [backend/rlm/environment.py],
    [backend/rlm/engine.py], [backend/rlm/summarizer.py] and the part of
    [backend/config.py] and [backend/main.py] that wires the engine, followed
    by the properties of the orchestration loop stated over it.

    Text is modelled by [string] (characters are 8-bit code points), Python
    dictionaries by stdpp's [gmap], Python exceptions by sum types. *)

From Stdlib Require Import ZArith Ascii String List Lia Bool.
From stdpp Require Import base gmap strings list fin_maps pretty.

(* ===================================================================== *)
(** ** Text primitives of the host language *)
(* ===================================================================== *)

Module Text.

Definition chr (n : nat) : string := String (ascii_of_nat n) EmptyString.

(** line feed, double quote *)
Definition nl : string := chr 10.
Definition dq : string := chr 34.

(** [str.isspace] on one character, as used by [str.strip] and by the
    regular-expression class [\s]: TAB, LF, VT, FF, CR, the four
    separators FS GS RS US, SPACE, NEL (133) and the no-break space
    (160). *)
Definition is_space (c : ascii) : bool :=
  let n := nat_of_ascii c in
  (Nat.leb 9 n && Nat.leb n 13) || (Nat.leb 28 n && Nat.leb n 32)
  || Nat.eqb n 133 || Nat.eqb n 160.

Fixpoint lstrip (s : string) : string :=
  match s with
  | EmptyString => EmptyString
  | String c s' => if is_space c then lstrip s' else s
  end.

Fixpoint rstrip (s : string) : string :=
  match s with
  | EmptyString => EmptyString
  | String c s' =>
      match rstrip s' with
      | EmptyString => if is_space c then EmptyString else String c EmptyString
      | r => String c r
      end
  end.

(** [s.strip()] *)
Definition strip (s : string) : string := rstrip (lstrip s).

(** [s.startswith(p)], returning what follows the prefix. *)
Fixpoint strip_prefix (p s : string) : option string :=
  match p with
  | EmptyString => Some s
  | String a p' =>
      match s with
      | EmptyString => None
      | String b s' => if Ascii.eqb a b then strip_prefix p' s' else None
      end
  end.

Definition startswith (p s : string) : bool :=
  match strip_prefix p s with Some _ => true | None => false end.

(** Leftmost occurrence of [pat] in [s]: the text before it and the text
    after it. *)
Fixpoint find (pat s : string) : option (string * string) :=
  match strip_prefix pat s with
  | Some rest => Some (EmptyString, rest)
  | None =>
      match s with
      | EmptyString => None
      | String c s' =>
          match find pat s' with
          | Some (before, after) => Some (String c before, after)
          | None => None
          end
      end
  end.

(** [pat in s] *)
Definition contains (pat s : string) : bool :=
  match find pat s with Some _ => true | None => false end.

(** [s[:n]] for [n >= 0] *)
Fixpoint take (n : nat) (s : string) : string :=
  match n, s with
  | S n', String c s' => String c (take n' s')
  | _, _ => EmptyString
  end.

(** [s.split(sep)] for a non-empty separator: [skip] counts the
    characters of a separator just recognised that are still to be
    dropped, [cur] is the piece being collected (reversed). *)
Fixpoint split_go (sep : string) (skip : nat) (cur : list ascii) (s : string)
  : list string :=
  match s with
  | EmptyString => [string_of_list_ascii (rev cur)]
  | String c s' =>
      match skip with
      | S k => split_go sep k cur s'
      | O =>
          if startswith sep s
          then string_of_list_ascii (rev cur)
               :: split_go sep (String.length sep - 1) [] s'
          else split_go sep O (c :: cur) s'
      end
  end.

Definition split (sep s : string) : list string := split_go sep 0 [] s.

(** [sep.join(l)] *)
Fixpoint join (sep : string) (l : list string) : string :=
  match l with
  | [] => EmptyString
  | [x] => x
  | x :: rest => x +:+ sep +:+ join sep rest
  end.

End Text.

(* ===================================================================== *)
(** ** [backend/llm]: the Model Client seen from the engine *)
(* ===================================================================== *)

(** A call to [generate] either returns the text payload or raises; a raised
    exception is kept as its class name and its message ([str(e)]). What
    the client raises is of the class [Exception] (the errors of the
    transport and of the service); the cancellation of a call is not
    modelled. *)
Definition Fault : Type := string * string.
Definition Response : Type := string + Fault.

(** The client is an oracle: the answer to a prompt may depend on every
    prompt sent to it before (oldest first). Exactly one attempt is made per
    call. *)
Definition Client : Type := list string -> string -> Response.

(* ===================================================================== *)
(** ** [backend/rlm/base.py] *)
(* ===================================================================== *)

Module Base.

(** The four values [step_type] takes. *)
Inductive StepType := code | output | llm_call | final.

Definition step_type_name (t : StepType) : string :=
  match t with
  | code => "code" | output => "output"
  | llm_call => "llm_call" | final => "final"
  end.

Record RLMStep := mkStep {
  step_type : StepType;
  content : string;
  depth : Z
}.

(** [RLMStep(step_type, content)]: the dataclass default [depth = 0]. *)
Definition Step (t : StepType) (c : string) : RLMStep := mkStep t c 0.

Record RLMResult := mkResult {
  query : string;
  context_length : nat;
  final_answer : string;
  steps : list RLMStep;
  total_llm_calls : nat;
  success : bool;
  error : option string
}.

(** [RLMResult(...)] with the dataclass defaults [success=True],
    [error=None]. *)
Definition Result (q : string) (len : nat) (ans : string)
    (st : list RLMStep) (calls : nat) : RLMResult :=
  mkResult q len ans st calls true None.

#[global] Instance StepType_eq_dec : EqDecision StepType.
Proof. solve_decision. Defined.

Definition is_type (t : StepType) (s : RLMStep) : bool :=
  bool_decide (step_type s = t).

(** Number of Steps of one kind in a trace. *)
Definition count (t : StepType) (l : list RLMStep) : nat :=
  length (filter (fun s => is_type t s = true) l).

End Base.

(* ===================================================================== *)
(** ** [backend/rlm/environment.py] *)
(* ===================================================================== *)

Module Environment.

(** Values a fragment can bind: the immutable ones. [VHost] stands for a
    host object bound under a fixed name (a function or a module).
    Objects that a fragment changes in place (lists, dictionaries),
    which the variables of the environment hold by reference, are
    outside the model: what is stated below of a binding is stated of
    the name and of an immutable value. *)
Inductive value :=
| VStr (s : string)
| VInt (z : Z)
| VBool (b : bool)
| VNone
| VHost (name : string).

#[global] Instance value_eq_dec : EqDecision value.
Proof. solve_decision. Defined.

(** [str(v)]. The text of a host object is interpreter-specific; a
    bracketed name stands for it. *)
Definition str (v : value) : string :=
  match v with
  | VStr s => s
  | VInt z => pretty z
  | VBool true => "True"
  | VBool false => "False"
  | VNone => "None"
  | VHost n => "<" +:+ n +:+ ">"
  end.

Record FinalAnswer := mkFinalAnswer { answer : string }.

(** What one execution of model-written code does, seen from the
    namespace it runs in: it rebinds names, calls the [print] of the
    namespace, calls [llm_query] and goes on with the reply, and it ends
    by falling off its end, by calling [FINAL] or [FINAL_VAR], or by
    raising, without handling it itself, an exception given by its
    class name and its message: [Raise] for a fault, an exception of the
    class [Exception]; [Exit] for an exception outside that class
    ([SystemExit], [KeyboardInterrupt], [GeneratorExit]). A fragment
    does not intercept the signal raised by [FINAL] and [FINAL_VAR], nor
    a fault of [llm_query]. *)
Inductive frag :=
| Done
| Assign (name : string) (v : value) (k : frag)
| Print (args : list value) (k : frag)
| LlmQuery (prompt : string) (k : string -> frag)
| Final (v : value)
| FinalVar (var_name : string)
| Raise (kind desc : string)
| Exit (kind desc : string).

(** How [exec(code, namespace)] came to its end. *)
Inductive terminal :=
| TReturn
| TFinal (v : value)
| TFinalVar (var_name : string)
| TRaise (kind desc : string)
| TExit (kind desc : string).

(** The host interpreter: the behaviour of a code text started in a
    namespace. *)
Definition Interp : Type := string -> gmap string value -> frag.

Record RLMEnvironment := mkEnv {
  context : string;
  query : string;
  variables : gmap string value
}.

(** [RLMEnvironment(context, query, llm_callback)]; the callback is the
    parameter of [execute] below. *)
Definition new (ctx q : string) : RLMEnvironment := mkEnv ctx q ∅.

(** The names the namespace literal of [execute] binds. *)
Definition fixed_names : list string :=
  ["context"; "query"; "llm_query"; "FINAL"; "FINAL_VAR"; "re"; "print";
   "len"; "str"; "int"; "list"; "dict"; "range"; "enumerate"; "zip";
   "sorted"; "min"; "max"; "sum"; "True"; "False"; "None"].

Definition fixed_value (env : RLMEnvironment) (name : string) : value :=
  if String.eqb name "context" then VStr (context env)
  else if String.eqb name "query" then VStr (query env)
  else if String.eqb name "True" then VBool true
  else if String.eqb name "False" then VBool false
  else if String.eqb name "None" then VNone
  else VHost name.

Definition fixed_bindings (env : RLMEnvironment) : gmap string value :=
  list_to_map (map (fun n => (n, fixed_value env n)) fixed_names).

(** The namespace a fragment starts in: the literal, then
    [namespace.update(self.variables)]. *)
Definition namespace (env : RLMEnvironment) : gmap string value :=
  variables env ∪ fixed_bindings env.

(** The same with the [__builtins__] entry that [exec] adds to a
    namespace lacking it. *)
Definition namespace0 (env : RLMEnvironment) : gmap string value :=
  <["__builtins__" := VHost "__builtins__"]> (namespace env).

(** The set [skip] of [_save_variables]. *)
Definition skip : list string := fixed_names ++ ["__builtins__"].

Definition saved (name : string) : bool :=
  negb (bool_decide (name ∈ skip)) && negb (Text.startswith "_" name).

Definition _save_variables (ns vars : gmap string value)
  : gmap string value :=
  map_fold (fun name v acc => if saved name then <[name := v]> acc else acc)
           vars ns.

(** The [print] of the namespace: the arguments' texts separated by a
    space, then a line feed, written to [stdout]. *)
Definition print_line (args : list value) : string :=
  Text.join " " (map str args) +:+ Text.nl.

(** [_final] and [_final_var]: both always raise [FinalAnswer]. *)
Definition _final (v : value) : FinalAnswer := mkFinalAnswer (str v).

Definition _final_var (env : RLMEnvironment) (var_name : string)
  : FinalAnswer :=
  match variables env !! var_name with
  | Some v => mkFinalAnswer (str v)
  | None => mkFinalAnswer ("Error: Variable '" +:+ var_name +:+ "' not found")
  end.

(** How a call of [execute] ends: it returns a text, it raises
    [FinalAnswer], or an exception that none of its [except] clauses
    names passes through it. *)
Inductive outcome :=
| Returns (out : string)
| Raises (fa : FinalAnswer)
| Escapes (e : Fault).

Section Execute.
(** The state the callback works on and the callback itself
    ([self.llm_callback]). *)
Context {S : Type}.
Variable llm_callback : string -> S -> Response * S.
Variable python : Interp.

(** [_llm_query] *)
Definition _llm_query (prompt : string) (st : S) : Response * S :=
  llm_callback prompt st.

(** [exec(code, namespace)]: the namespace is updated in place, printed
    text goes to [stdout]. *)
Fixpoint exec (t : frag) (ns : gmap string value) (stdout : string)
    (st : S) : terminal * gmap string value * string * S :=
  match t with
  | Done => (TReturn, ns, stdout, st)
  | Assign x v k => exec k (<[x := v]> ns) stdout st
  | Print args k => exec k ns (stdout +:+ print_line args) st
  | LlmQuery prompt k =>
      match _llm_query prompt st with
      | (inl reply, st') => exec (k reply) ns stdout st'
      | (inr (kind, msg), st') => (TRaise kind msg, ns, stdout, st')
      end
  | Final v => (TFinal v, ns, stdout, st)
  | FinalVar x => (TFinalVar x, ns, stdout, st)
  | Raise kind desc => (TRaise kind desc, ns, stdout, st)
  | Exit kind desc => (TExit kind desc, ns, stdout, st)
  end.

(** [execute]: returns what was printed, or the text of a fault caught
    by [except Exception]; [FinalAnswer] is re-raised; any other
    exception is not caught. *)
Definition execute (env : RLMEnvironment) (code : string) (st : S)
  : outcome * RLMEnvironment * S :=
  let ns0 := namespace0 env in
  match exec (python code ns0) ns0 EmptyString st with
  | (TReturn, ns, stdout, st') =>
      (Returns stdout,
       mkEnv (context env) (query env) (_save_variables ns (variables env)),
       st')
  | (TFinal v, _, _, st') => (Raises (_final v), env, st')
  | (TFinalVar x, _, _, st') => (Raises (_final_var env x), env, st')
  | (TRaise kind desc, _, _, st') =>
      (Returns ("Error: " +:+ kind +:+ ": " +:+ desc), env, st')
  | (TExit kind desc, _, _, st') => (Escapes (kind, desc), env, st')
  end.
End Execute.

End Environment.

(* ===================================================================== *)
(** ** [backend/rlm/engine.py] *)
(* ===================================================================== *)

Module Engine.
Import Base.
Import Environment.

Definition lines (l : list string) : string := Text.join Text.nl l.

(** [SYSTEM_PROMPT.format(context_len=..., query=...)], line by line. *)
Definition SYSTEM_PROMPT (context_len q : string) : string :=
  lines [
    "You have access to a Python REPL to answer questions about documents.";
    "";
    "## Available Variables";
    "- `context` - The document text (may be very large)";
    "- `query` - The user's question";
    "";
    "## Available Functions";
    "- `print(...)` - See output";
    "- `llm_query(prompt)` - Ask a sub-question to another LLM";
    "- `FINAL(answer)` - Return your final answer (REQUIRED when done)";
    "- `re` - Regex module for searching";
    "";
    "## Strategy";
    "1. First, check the context size: `print(len(context))`";
    "2. Peek at the content: `print(context[:1000])`";
    "3. Search if needed: `print(re.findall(r'pattern', context))`";
    "4. For complex tasks, use llm_query() on chunks";
    "5. Call FINAL(" +:+ Text.dq +:+ "your answer" +:+ Text.dq +:+ ") when done";
    "";
    "## Rules";
    "- Write Python code in ```python blocks";
    "- Always end with FINAL() when you have the answer";
    "- Don't try to read all context at once if it's large";
    "";
    "## Your Task";
    "Context length: " +:+ context_len +:+ " characters";
    "Question: " +:+ q;
    "";
    "Start by examining the context, then answer the question.";
    ""
  ].

(** The prompt of every later round (the f-string of step 4). *)
Definition next_prompt (out : string) : string :=
  lines [
    "Previous code output:";
    "```";
    match out with EmptyString => "(no output)" | _ => out end;
    "```";
    "";
    "Continue analyzing. Remember to call FINAL(answer) when you have the answer.";
    "Write your next code block:"
  ].

Definition keywords : list string :=
  ["print"; "for"; "if"; "def"; "="; "FINAL"].

(** The second search of [_extract_code]: the first generically fenced
    block, kept only if it holds one of the keywords. *)
Definition extract_generic (text : string) : option string :=
  match Text.find "```" text with
  | Some (_, rest) =>
      match Text.find "```" (Text.lstrip rest) with
      | Some (body, _) =>
          let code := Text.strip body in
          if existsb (fun kw => Text.contains kw code) keywords
          then Some code else None
      | None => None
      end
  | None => None
  end.

(** [_extract_code]: the first search is for a block tagged [python];
    when it matches, its stripped body is returned whatever it holds. *)
Definition _extract_code (text : string) : option string :=
  match Text.find "```python" text with
  | Some (_, rest) =>
      match Text.find "```" (Text.lstrip rest) with
      | Some (body, _) => Some (Text.strip body)
      | None => extract_generic text
      end
  | None => extract_generic text
  end.

(** Who asked the client: the loop itself, or [llm_query]. *)
Inductive Origin := Generation | SubQuery.

#[global] Instance Origin_eq_dec : EqDecision Origin.
Proof. solve_decision. Defined.

(** The locals of [run] shared with its closures: [steps], [llm_calls],
    and (for the statements below) the prompts sent to the client so
    far, oldest first, each with its origin. *)
Record RunState := mkState {
  steps : list RLMStep;
  llm_calls : nat;
  sent : list (Origin * string)
}.

Definition prompts (st : RunState) : list string := map snd (sent st).

(** Client calls of one origin made so far. *)
Definition calls_from (o : Origin) (st : RunState) : nat :=
  length (filter (fun c => c.1 = o) (sent st)).

Record RLMEngine := mkEngine {
  llm : Client;
  max_iterations : Z
}.

(** What one round of the [for] loop leads to: the next round, a
    [return], an exception caught by the [except Exception] of [run], or
    an exception that this clause does not catch and that leaves
    [run]. *)
Inductive flow :=
| Next (prompt : string) (env : RLMEnvironment) (st : RunState)
| Return (r : RLMResult) (st : RunState)
| Throw (e : Fault) (st : RunState)
| Leave (e : Fault) (st : RunState).

(** The message of the [RuntimeError] that an event loop of [asyncio]
    raises when [run_until_complete] is called while it runs. *)
Definition already_running : string := "This event loop is already running".

Section Run.
Variable python : Interp.
Variable self : RLMEngine.

(** [llm_callback]: count the call, record a Step (built with the
    default depth), ask the client. *)
Definition llm_callback (prompt : string) (st : RunState)
  : Response * RunState :=
  let calls := S (llm_calls st) in
  let shown := if Nat.ltb 200 (String.length prompt)
               then Text.take 200 prompt +:+ "..." else prompt in
  let steps' := steps st ++ [Step llm_call shown] in
  let p := "Answer concisely: " +:+ prompt in
  (llm self (prompts st) p, mkState steps' calls (sent st ++ [(SubQuery, p)])).

(** [sync_callback]. [run] is a coroutine: it runs inside the event loop
    that drives it ([asyncio.run] in [run_rlm.py], the server for
    [main.py]). [get_event_loop] hands back that loop, and
    [run_until_complete], called on a loop that is already running,
    raises [RuntimeError] before the coroutine made from [llm_callback]
    is started: the call is refused, and nothing is counted, recorded or
    sent. *)
Definition sync_callback (prompt : string) (st : RunState)
  : Response * RunState :=
  let coroutine := llm_callback prompt st in
  (inr ("RuntimeError", already_running), st).

Section Round.
Variables q ctx : string.

(** The body of the [for] loop. *)
Definition iteration (prompt : string) (env : RLMEnvironment)
    (st : RunState) : flow :=
  let st1 := mkState (steps st) (S (llm_calls st))
                     (sent st ++ [(Generation, prompt)]) in
  match llm self (prompts st) prompt with
  | inr e => Throw e st1
  | inl response =>
      match _extract_code response with
      | None | Some EmptyString =>
          let steps' := steps st1 ++ [Step final response] in
          Return (Result q (String.length ctx) response steps' (llm_calls st1))
                 (mkState steps' (llm_calls st1) (sent st1))
      | Some src =>
          let st2 := mkState (steps st1 ++ [Step code src])
                             (llm_calls st1) (sent st1) in
          match execute sync_callback python env src st2 with
          | (Returns out, env', st3) =>
              Next (next_prompt out) env'
                   (mkState (steps st3 ++ [Step output out])
                            (llm_calls st3) (sent st3))
          | (Raises fa, _, st3) =>
              let steps' := steps st3 ++ [Step final (answer fa)] in
              Return (Result q (String.length ctx) (answer fa) steps'
                             (llm_calls st3))
                     (mkState steps' (llm_calls st3) (sent st3))
          | (Escapes e, _, st3) => Leave e st3
          end
      end
  end.

(** [for iteration in range(n)] with what follows it, inside the [try]:
    [run] returns a result ([inl]) or is left by an exception that its
    [except Exception] does not catch ([inr]); either comes with the
    locals as they are at that moment. *)
Fixpoint loop (n : nat) (prompt : string) (env : RLMEnvironment)
    (st : RunState) : (RLMResult + Fault) * RunState :=
  match n with
  | O =>
      (inl (mkResult q (String.length ctx)
              "[Reached max iterations without final answer]"
              (steps st) (llm_calls st) false (Some "Max iterations reached")),
       st)
  | S n' =>
      match iteration prompt env st with
      | Next prompt' env' st' => loop n' prompt' env' st'
      | Return r st' => (inl r, st')
      | Throw (_, msg) st' =>
          (inl (mkResult q (String.length ctx)
                  ("[Error: " +:+ msg +:+ "]")
                  (steps st') (llm_calls st') false (Some msg)),
           st')
      | Leave e st' => (inr e, st')
      end
  end.

Definition start : string * RLMEnvironment * RunState :=
  (SYSTEM_PROMPT (pretty (String.length ctx)) q,
   Environment.new ctx q,
   mkState [] 0 []).

(** [run], with the locals at its end. *)
Definition run_traced : (RLMResult + Fault) * RunState :=
  let '(prompt, env, st) := start in
  loop (Z.to_nat (max_iterations self)) prompt env st.

(** [run]: the result returned, or the exception that leaves it. *)
Definition run : RLMResult + Fault := run_traced.1.

(** The loop variables after [i] rounds that all went on to the next
    round; [None] once the run has come to its end. *)
Fixpoint after (i : nat) : option (string * RLMEnvironment * RunState) :=
  match i with
  | O => Some start
  | S j =>
      match after j with
      | Some (prompt, env, st) =>
          match iteration prompt env st with
          | Next prompt' env' st' => Some (prompt', env', st')
          | _ => None
          end
      | None => None
      end
  end.

(** [if not code]: the fragment a response yields, if any. *)
Definition fragment_of (response : string) : option string :=
  match _extract_code response with
  | None | Some EmptyString => None
  | Some src => Some src
  end.

(** The state in which the fragment [src] of a round starts to run. *)
Definition at_code (prompt src : string) (st : RunState) : RunState :=
  mkState (steps st ++ [Step code src]) (S (llm_calls st))
          (sent st ++ [(Generation, prompt)]).

(** How the fragment of the round that starts from these loop variables
    ends: [None] when the client fails or its response yields no
    fragment. *)
Definition round_terminal (prompt : string) (env : RLMEnvironment)
    (st : RunState) : option terminal :=
  match llm self (prompts st) prompt with
  | inr _ => None
  | inl response =>
      match fragment_of response with
      | None => None
      | Some src =>
          Some (exec sync_callback (python src (namespace0 env))
                     (namespace0 env) EmptyString
                     (at_code prompt src st)).1.1.1
      end
  end.

(** How the [k]-th fragment of the run ends ([k] counted from 1): [None]
    when the run does not get to execute a [k]-th fragment. *)
Definition fragment_end (k : nat) : option terminal :=
  match k with
  | O => None
  | S i =>
      match after i with
      | Some (prompt, env, st) => round_terminal prompt env st
      | None => None
      end
  end.

End Round.
End Run.

End Engine.

(* ===================================================================== *)
(** ** [backend/rlm/summarizer.py]: the splitter *)
(* ===================================================================== *)

Module Summarizer.

(** The paragraph separator: two line feeds. *)
Definition sep : string := Text.nl +:+ Text.nl.

Definition truthy (s : string) : bool :=
  match s with EmptyString => false | _ => true end.

(** One round of the [for para in paragraphs] loop of [_split], on the
    pair of [chunks] and [current]. *)
Definition add_paragraph (chunk_size : Z) (acc : list string * string)
    (para : string) : list string * string :=
  let '(chunks, current) := acc in
  if (Z.of_nat (String.length current + String.length para) >? chunk_size)%Z
  then ((if truthy current then chunks ++ [Text.strip current] else chunks),
        para)
  else (chunks,
        if truthy current then current +:+ sep +:+ para else para).

(** [_split] *)
Definition _split (chunk_size : Z) (text : string) : list string :=
  let paragraphs := Text.split sep text in
  let '(chunks, current) :=
    fold_left (add_paragraph chunk_size) paragraphs ([], EmptyString) in
  if truthy (Text.strip current)
  then chunks ++ [Text.strip current]
  else chunks.

End Summarizer.

(* ===================================================================== *)
(** ** [backend/config.py] and the wiring of [backend/main.py] *)
(* ===================================================================== *)

Module Service.
Import Base.

(** [RLMConfig] *)
Record RLMConfig := mkConfig {
  max_iterations : Z;
  max_depth : Z;
  max_output_length : Z
}.

(** The defaults of [RLMConfig]. *)
Definition default_config : RLMConfig := mkConfig 10 3 10000.



End Service.

(* ===================================================================== *)
(** ** A small host and scripted clients, for running the model *)
(* ===================================================================== *)

Module Demo.
Import Base.
Import Environment.

(** The fragment texts used in the examples. *)
Definition code_final_42 : string :=
  "FINAL(" +:+ Text.dq +:+ "42" +:+ Text.dq +:+ ")".

(** The behaviour of a handful of one-line fragments (any other text is a
    syntax error). *)
Definition demo_python : Interp := fun src ns =>
  if String.eqb src code_final_42 then Final (VStr "42")
  else if String.eqb src "print(len(context))" then
    match ns !! "context" with
    | Some (VStr c) => Print [VInt (Z.of_nat (String.length c))] Done
    | _ => Raise "TypeError" "object has no len()"
    end
  else if String.eqb src "x = 1; print(x)" then
    Assign "x" (VInt 1) (Print [VInt 1] Done)
  else if String.eqb src "_tmp = 1; y = 2" then
    Assign "_tmp" (VInt 1) (Assign "y" (VInt 2) Done)
  else if String.eqb src "z = 3; 1/0" then
    Assign "z" (VInt 3) (Raise "ZeroDivisionError" "division by zero")
  else if String.eqb src "print(y)" then
    match ns !! "y" with
    | Some v => Print [v] Done
    | None => Raise "NameError" "name 'y' is not defined"
    end
  else if String.eqb src "x = 5; FINAL_VAR('x')" then
    Assign "x" (VInt 5) (FinalVar "x")
  else if String.eqb src "FINAL_VAR('x')" then FinalVar "x"
  else if String.eqb src "a = llm_query('hi'); FINAL(a)" then
    LlmQuery "hi" (fun reply => Assign "a" (VStr reply) (Final (VStr reply)))
  else if String.eqb src "1/0" then
    Raise "ZeroDivisionError" "division by zero"
  else Raise "SyntaxError" "invalid syntax".

(** A response holding [src] in a tagged block. *)
Definition tagged (src : string) : string :=
  "Here is the code:" +:+ Text.nl +:+ "```python" +:+ Text.nl +:+ src
  +:+ Text.nl +:+ "```" +:+ Text.nl.

(** A client that answers its [n]-th call with the [n]-th entry of a
    script, and with the empty text afterwards. *)
Definition scripted (script : list Response) : Client :=
  fun history _ => nth (length history) script (inl EmptyString).

(** A client that gives the same answer to every call. *)
Definition constant (r : Response) : Client := fun _ _ => r.

(** Two rounds: a fragment that binds and prints, then [FINAL] with the
    text 42. *)
Definition two_rounds : Engine.RLMEngine :=
  Engine.mkEngine
    (scripted [inl (tagged "x = 1; print(x)"); inl (tagged code_final_42)]) 5.

(** A client that always sends the same faulting fragment, and a budget
    of two rounds. *)
Definition never_done : Engine.RLMEngine :=
  Engine.mkEngine (constant (inl (tagged "z = 3; 1/0"))) 2.

(** A first fragment that binds [x], a second that ends with
    [FINAL_VAR('x')]. *)
Definition bind_then_final_var : Engine.RLMEngine :=
  Engine.mkEngine
    (scripted [inl (tagged "x = 1; print(x)"); inl (tagged "FINAL_VAR('x')")])
    5.

(** One fragment that binds [x] and calls [FINAL_VAR('x')] itself. *)
Definition bind_and_final_var : Engine.RLMEngine :=
  Engine.mkEngine (constant (inl (tagged "x = 5; FINAL_VAR('x')"))) 5.

(** A callback for running [execute] on its own: every sub-question gets
    the empty reply. *)
Definition mute : string -> unit -> Response * unit :=
  fun _ st => (inl EmptyString, st).

(** The client of the example: always the same prose; budget 3. *)
Definition prose : Engine.RLMEngine :=
  Engine.mkEngine (constant (inl "The document is about tea.")) 3.

(** A first round that goes on, then a client that reports an error. *)
Definition fails_second : Engine.RLMEngine :=
  Engine.mkEngine
    (scripted [inl (tagged "x = 1; print(x)");
               inr ("ValueError", "Ollama error: model not found")]) 5.

(** An engine without any budget. *)
Definition no_budget : Engine.RLMEngine :=
  Engine.mkEngine (constant (inl (tagged code_final_42))) 0.

(** The same host, knowing one more fragment: it rebinds [context]. *)
Definition demo_python_rebind : Interp := fun src ns =>
  if String.eqb src "context = 'mine'; w = 7"
  then Assign "context" (VStr "mine") (Assign "w" (VInt 7) Done)
  else demo_python src ns.

(** A client that always sends the rebinding fragment. *)
Definition rebinds : Engine.RLMEngine :=
  Engine.mkEngine (constant (inl (tagged "context = 'mine'; w = 7"))) 3.

(** The same host, knowing two more fragments: one prints and then
    raises [SystemExit], the other binds a name, prints it and then
    asks a sub-question. *)
Definition demo_python_more : Interp := fun src ns =>
  if String.eqb src "print(1); raise SystemExit('bye')"
  then Print [VInt 1] (Exit "SystemExit" "bye")
  else if String.eqb src "n = 3; print(n); a = llm_query('hi')"
  then Assign "n" (VInt 3)
         (Print [VInt 3]
            (LlmQuery "hi" (fun reply => Assign "a" (VStr reply) Done)))
  else demo_python src ns.


(** A client that always sends the fragment with the sub-question. *)
Definition asks_always : Client :=
  constant (inl (tagged "a = llm_query('hi'); FINAL(a)")).

(** A client that always sends a fragment that binds, prints and then
    asks a sub-question. *)
Definition asks_later : Engine.RLMEngine :=
  Engine.mkEngine
    (constant (inl (tagged "n = 3; print(n); a = llm_query('hi')"))) 1.


End Demo.

(* ===================================================================== *)
(** ** [backend/rlm/summarizer.py]: the summarizer *)
(* ===================================================================== *)

Module Summarize.

Record SummaryResult := mkSummary {
  summary : string;
  chunk_count : nat;
  levels : nat
}.

(** One call of [self.llm.generate]: the prompts sent so far grow by
    this one, whether the client answers or raises. *)
Definition ask (llm : Client) (prompt : string) (history : list string)
  : Response * list string :=
  (llm history prompt, history ++ [prompt]).

Definition chunk_prompt (chunk : string) : string :=
  "Summarize this in 2-3 sentences:" +:+ Summarizer.sep +:+ chunk.

Definition merge_prompt (group : list string) : string :=
  "Combine these summaries into one:" +:+ Summarizer.sep
  +:+ Text.join Summarizer.sep group.

(** The first loop of [summarize]: one call per chunk, each reply
    stripped; a fault of the client leaves the loop at once. *)
Fixpoint summarize_chunks (llm : Client) (chunks : list string)
    (history : list string) : (list string + Fault) * list string :=
  match chunks with
  | [] => (inl [], history)
  | chunk :: rest =>
      match ask llm (chunk_prompt chunk) history with
      | (inr e, history') => (inr e, history')
      | (inl reply, history') =>
          match summarize_chunks llm rest history' with
          | (inl summaries, history'') =>
              (inl (Text.strip reply :: summaries), history'')
          | (inr e, history'') => (inr e, history'')
          end
      end
  end.

(** The groups [summaries[i:i+3]] for [i] in [range(0, len, 3)]. *)
Fixpoint groups (summaries : list string) : list (list string) :=
  match summaries with
  | [] => []
  | [a] => [[a]]
  | [a; b] => [[a; b]]
  | a :: b :: c :: rest => [a; b; c] :: groups rest
  end.

(** The inner [for] loop of one merge pass: one call per group. *)
Fixpoint combine (llm : Client) (gs : list (list string))
    (history : list string) : (list string + Fault) * list string :=
  match gs with
  | [] => (inl [], history)
  | group :: rest =>
      match ask llm (merge_prompt group) history with
      | (inr e, history') => (inr e, history')
      | (inl merged, history') =>
          match combine llm rest history' with
          | (inl combined, history'') =>
              (inl (Text.strip merged :: combined), history'')
          | (inr e, history'') => (inr e, history'')
          end
      end
  end.

(** [while len(summaries) > 1], with the number of passes it may still
    make; [None] stands for a loop cut short by that number. *)
Fixpoint merge (llm : Client) (passes : nat) (level : nat)
    (summaries : list string) (history : list string)
  : option ((string * nat + Fault) * list string) :=
  match summaries with
  | [] => Some (inr ("IndexError", "list index out of range"), history)
  | [one] => Some (inl (one, level), history)
  | _ =>
      match passes with
      | O => None
      | S passes' =>
          match combine llm (groups summaries) history with
          | (inl combined, history') =>
              merge llm passes' (S level) combined history'
          | (inr e, history') => Some (inr e, history')
          end
      end
  end.

(** [summarize]: the result or the fault that escapes, with the prompts
    sent. The merge loop is given as many passes as there are chunks. *)
Definition summarize (llm : Client) (chunk_size : Z) (text : string)
  : option ((SummaryResult + Fault) * list string) :=
  let chunks := Summarizer._split chunk_size text in
  match chunks with
  | [] => Some (inl (mkSummary "Empty document." 0 0), [])
  | _ =>
      match summarize_chunks llm chunks [] with
      | (inr e, history) => Some (inr e, history)
      | (inl summaries, history) =>
          match merge llm (length chunks) 1 summaries history with
          | Some (inl (s, level), history') =>
              Some (inl (mkSummary s (length chunks) level), history')
          | Some (inr e, history') => Some (inr e, history')
          | None => None
          end
      end
  end.

End Summarize.

(* ===================================================================== *)
(** ** Vocabulary of the statements *)
(* ===================================================================== *)

Module Trace.
Import Base.
Import Engine.

(** [st'] is [st] after some calls of [llm_query] and nothing else: only
    [llm_call] Steps were appended, one per call, each with one client call
    of origin [SubQuery] and one increment of the counter. *)
Definition sub_calls_only (st st' : RunState) : Prop :=
  exists (new_steps : list RLMStep) (new_sent : list (Origin * string)),
    steps st' = steps st ++ new_steps /\
    sent st' = sent st ++ new_sent /\
    Forall (fun s => step_type s = llm_call) new_steps /\
    Forall (fun c => c.1 = SubQuery) new_sent /\
    length new_sent = length new_steps /\
    llm_calls st' = llm_calls st + length new_steps.

(** What holds of the locals of [run] between two rounds, [i] rounds
    having been completed. *)
Definition round_inv (i : nat) (st : RunState) : Prop :=
  count code (steps st) = i /\
  count output (steps st) = i /\
  count final (steps st) = 0 /\
  calls_from Generation st = i /\
  calls_from SubQuery st = count llm_call (steps st) /\
  llm_calls st = length (sent st).

(** Plain prose: a text without any code fence. *)
Definition no_fence (s : string) : Prop :=
  forall a b : string, s <> a +:+ "```" +:+ b.

(** The prompt of the first [llm_query] a fragment gets to, if it gets
    to one. *)
Fixpoint first_query (t : Environment.frag) : option string :=
  match t with
  | Environment.Assign _ _ k | Environment.Print _ k => first_query k
  | Environment.LlmQuery p _ => Some p
  | _ => None
  end.


End Trace.

(* ===================================================================== *)
(** ** Properties *)
(* ===================================================================== *)

Section Counting.
Import Base.

Lemma count_app (t : StepType) (l l' : list RLMStep) :
  count t (l ++ l') = count t l + count t l'.
Proof. unfold count. by rewrite filter_app, length_app. Qed.

Lemma count_nil (t : StepType) : count t [] = 0.
Proof. reflexivity. Qed.

Lemma count_one_same (t : StepType) (c : string) : count t [Step t c] = 1.
Proof. by destruct t. Qed.

Lemma count_one_other (t u : StepType) (c : string) :
  t <> u -> count t [Step u c] = 0.
Proof. by destruct t, u. Qed.

Lemma count_all_other (t u : StepType) (l : list RLMStep) :
  t <> u -> Forall (fun s => step_type s = u) l -> count t l = 0.
Proof.
  intros Hne Hall. induction Hall as [|s l Hs _ IH]; [reflexivity|].
  change (s :: l) with ([s] ++ l). rewrite count_app, IH.
  destruct s as [ty c d]; simpl in Hs; subst ty. by destruct t, u.
Qed.

Lemma count_all_same (u : StepType) (l : list RLMStep) :
  Forall (fun s => step_type s = u) l -> count u l = length l.
Proof.
  intros Hall. induction Hall as [|s l Hs _ IH]; [reflexivity|].
  change (s :: l) with ([s] ++ l). rewrite count_app, IH.
  destruct s as [ty c d]; simpl in Hs; subst ty. by destruct u.
Qed.

End Counting.

Section SubCalls.
Import Base.
Import Environment.
Import Engine.
Import Trace.

Variable self : RLMEngine.

Lemma calls_from_app (o : Origin) (st : RunState) (l l' : list (Origin * string))
    (n : nat) (s : list RLMStep) :
  sent st = l ++ l' ->
  calls_from o st = calls_from o (mkState s n l) + calls_from o (mkState s n l').
Proof.
  intros H. unfold calls_from. rewrite H. simpl.
  by rewrite filter_app, length_app.
Qed.

Lemma calls_from_all (o : Origin) (l : list (Origin * string)) :
  Forall (fun c => c.1 = o) l ->
  length (filter (fun c : Origin * string => c.1 = o) l) = length l.
Proof.
  induction 1 as [|c l Hc _ IH]; [reflexivity|].
  rewrite filter_cons_True by done. simpl. by rewrite IH.
Qed.

Lemma calls_from_none (o o' : Origin) (l : list (Origin * string)) :
  o <> o' ->
  Forall (fun c => c.1 = o') l ->
  length (filter (fun c : Origin * string => c.1 = o) l) = 0.
Proof.
  intros Hne. induction 1 as [|c l Hc _ IH]; [reflexivity|].
  rewrite filter_cons_False by congruence. done.
Qed.

Lemma sub_calls_refl (st : RunState) : sub_calls_only st st.
Proof.
  exists [], []. rewrite !app_nil_r. repeat split; auto.
Qed.

Lemma sub_calls_trans (a b c : RunState) :
  sub_calls_only a b -> sub_calls_only b c -> sub_calls_only a c.
Proof.
  intros (s1 & c1 & Hs1 & Hc1 & Fs1 & Fc1 & Hl1 & Hn1)
         (s2 & c2 & Hs2 & Hc2 & Fs2 & Fc2 & Hl2 & Hn2).
  exists (s1 ++ s2), (c1 ++ c2).
  rewrite Hs2, Hs1, Hc2, Hc1, <- !app_assoc, !length_app.
  repeat split; auto using Forall_app_2; lia.
Qed.

(** One call of [llm_query]: one more counted call, one more Step, one
    more prompt sent. *)
Lemma llm_callback_sub (prompt : string) (st : RunState) :
  sub_calls_only st (llm_callback self prompt st).2.
Proof.
  unfold llm_callback. cbn [snd steps sent llm_calls].
  eexists [_], [_]. cbn [length].
  repeat split; auto; repeat constructor.
  cbn [llm_calls]. lia.
Qed.

(** A fragment touches the locals of [run] through [llm_query] only,
    and [llm_query], refused by [sync_callback], leaves them as they
    are. *)
Lemma exec_locals (t : frag) :
  forall (ns : gmap string value) (out : string) (st : RunState),
    (exec (sync_callback self) t ns out st).2 = st.
Proof.
  induction t as [|x v k IH|args k IH|prompt k IH|v|x|kind desc|kind desc];
    intros ns out st; cbn [exec snd]; try reflexivity; apply IH.
Qed.

Lemma exec_sub_calls (t : frag) :
  forall (ns : gmap string value) (out : string) (st : RunState),
    sub_calls_only st (exec (sync_callback self) t ns out st).2.
Proof.
  intros ns out st. rewrite exec_locals. apply sub_calls_refl.
Qed.

Lemma sub_calls_counts (st st' : RunState) :
  sub_calls_only st st' ->
  count code (steps st') = count code (steps st) /\
  count output (steps st') = count output (steps st) /\
  count final (steps st') = count final (steps st) /\
  calls_from Generation st' = calls_from Generation st /\
  calls_from SubQuery st' + count llm_call (steps st)
    = calls_from SubQuery st + count llm_call (steps st') /\
  llm_calls st' + length (sent st) = llm_calls st + length (sent st').
Proof.
  intros (s & c & Hs & Hc & Fs & Fc & Hl & Hn).
  unfold calls_from. rewrite Hs, Hc, !count_app, !filter_app, !length_app.
  rewrite (count_all_other code llm_call s),
    (count_all_other output llm_call s),
    (count_all_other final llm_call s), (count_all_same llm_call s) by done.
  rewrite (calls_from_none Generation SubQuery c), (calls_from_all SubQuery c)
    by done.
  lia.
Qed.

End SubCalls.

Section Rounds.
Import Base.
Import Environment.
Import Engine.
Import Trace.

Variable python : Interp.
Variable self : RLMEngine.
Variables q ctx : string.

(** [execute] in terms of the way the fragment ends. *)
Lemma execute_cases {S : Type} (cb : string -> S -> Response * S)
    (py : Interp) (env : RLMEnvironment) (src : string) (st : S) :
  execute cb py env src st =
  match exec cb (py src (namespace0 env)) (namespace0 env) EmptyString st with
  | (TReturn, ns, stdout, st') =>
      (Returns stdout,
       mkEnv (context env) (Environment.query env)
             (_save_variables ns (variables env)),
       st')
  | (TFinal v, _, _, st') => (Raises (_final v), env, st')
  | (TFinalVar x, _, _, st') => (Raises (_final_var env x), env, st')
  | (TRaise kind desc, _, _, st') =>
      (Returns ("Error: " +:+ kind +:+ ": " +:+ desc), env, st')
  | (TExit kind desc, _, _, st') => (Escapes (kind, desc), env, st')
  end.
Proof. reflexivity. Qed.

Lemma fragment_of_some (response src : string) :
  fragment_of response = Some src ->
  _extract_code response = Some src /\ src <> EmptyString.
Proof.
  unfold fragment_of. destruct (_extract_code response) as [[|c s]|];
    intros H; inversion H; subst. split; [reflexivity|discriminate].
Qed.

Lemma fragment_of_none (response : string) :
  fragment_of response = None ->
  _extract_code response = None \/ _extract_code response = Some EmptyString.
Proof.
  unfold fragment_of. destruct (_extract_code response) as [[|c s]|];
    intros H; inversion H; auto.
Qed.

(** A round whose response yields no fragment returns the response. *)
Lemma iteration_no_fragment (prompt : string) (env : RLMEnvironment)
    (st : RunState) (response : string) :
  llm self (prompts st) prompt = inl response ->
  fragment_of response = None ->
  iteration python self q ctx prompt env st =
    Return (Result q (String.length ctx) response
              (steps st ++ [Step final response]) (S (llm_calls st)))
           (mkState (steps st ++ [Step final response]) (S (llm_calls st))
                    (sent st ++ [(Generation, prompt)])).
Proof.
  intros Hr Hf. unfold iteration. rewrite Hr.
  destruct (fragment_of_none _ Hf) as [-> | ->]; reflexivity.
Qed.

(** A round whose response yields a fragment, by the way the fragment
    ends. *)
Lemma iteration_fragment (prompt : string) (env : RLMEnvironment)
    (st : RunState) (response src : string) :
  llm self (prompts st) prompt = inl response ->
  fragment_of response = Some src ->
  iteration python self q ctx prompt env st =
  match exec (sync_callback self) (python src (namespace0 env))
             (namespace0 env) EmptyString (at_code prompt src st) with
  | (TReturn, ns, out, st') =>
      Next (next_prompt out)
           (mkEnv (context env) (Environment.query env)
                  (_save_variables ns (variables env)))
           (mkState (steps st' ++ [Step output out]) (llm_calls st') (sent st'))
  | (TRaise kind desc, _, _, st') =>
      let out := "Error: " +:+ kind +:+ ": " +:+ desc in
      Next (next_prompt out) env
           (mkState (steps st' ++ [Step output out]) (llm_calls st') (sent st'))
  | (TFinal v, _, _, st') =>
      Return (Result q (String.length ctx) (str v)
                (steps st' ++ [Step final (str v)]) (llm_calls st'))
             (mkState (steps st' ++ [Step final (str v)])
                      (llm_calls st') (sent st'))
  | (TFinalVar x, _, _, st') =>
      let a := answer (_final_var env x) in
      Return (Result q (String.length ctx) a
                (steps st' ++ [Step final a]) (llm_calls st'))
             (mkState (steps st' ++ [Step final a]) (llm_calls st') (sent st'))
  | (TExit kind desc, _, _, st') => Leave (kind, desc) st'
  end.
Proof.
  intros Hr Hf. destruct (fragment_of_some _ _ Hf) as [He Hne].
  unfold iteration. rewrite Hr, He.
  destruct src as [|c src']; [congruence|].
  rewrite execute_cases. unfold at_code. cbn [steps llm_calls sent].
  destruct (exec _ _ _ _ _)
    as [[[[| v | x | kind desc | kind desc] ns] out] st']; reflexivity.
Qed.

Lemma round_terminal_some (prompt : string) (env : RLMEnvironment)
    (st : RunState) (t : terminal) :
  round_terminal python self prompt env st = Some t ->
  exists response src,
    llm self (prompts st) prompt = inl response /\
    fragment_of response = Some src /\
    (exec (sync_callback self) (python src (namespace0 env))
          (namespace0 env) EmptyString (at_code prompt src st)).1.1.1 = t.
Proof.
  unfold round_terminal.
  destruct (llm self (prompts st) prompt) as [response|e] eqn:Hr;
    [|discriminate].
  destruct (fragment_of response) as [src|] eqn:Hf; [|discriminate].
  intros [= <-]. by exists response, src.
Qed.

Lemma at_code_inv (i : nat) (prompt src : string) (st : RunState) :
  round_inv i st ->
  count code (steps (at_code prompt src st)) = S i /\
  count output (steps (at_code prompt src st)) = i /\
  count final (steps (at_code prompt src st)) = 0 /\
  calls_from Generation (at_code prompt src st) = S i /\
  calls_from SubQuery (at_code prompt src st)
    = count llm_call (steps (at_code prompt src st)) /\
  llm_calls (at_code prompt src st) = length (sent (at_code prompt src st)).
Proof.
  intros (Hc & Ho & Hf & Hg & Hs & Hl).
  unfold at_code, calls_from in *. cbn [steps llm_calls sent].
  rewrite !count_app, !filter_app, !length_app, count_one_same.
  rewrite !count_one_other by discriminate.
  rewrite filter_cons_True, filter_cons_False by done.
  cbn [length filter list_filter]. lia.
Qed.

(** A round that goes on keeps the invariant. *)
Lemma iteration_next_inv (i : nat) (prompt : string) (env : RLMEnvironment)
    (st : RunState) (prompt' : string) (env' : RLMEnvironment)
    (st' : RunState) :
  round_inv i st ->
  iteration python self q ctx prompt env st = Next prompt' env' st' ->
  round_inv (S i) st'.
Proof.
  intros Hinv Hit.
  destruct (llm self (prompts st) prompt) as [response|e] eqn:Hr;
    [|unfold iteration in Hit; rewrite Hr in Hit; discriminate].
  destruct (fragment_of response) as [src|] eqn:Hf;
    [|rewrite (iteration_no_fragment _ _ _ _ Hr Hf) in Hit; discriminate].
  rewrite (iteration_fragment _ _ _ _ _ Hr Hf) in Hit.
  pose proof (exec_sub_calls self (python src (namespace0 env))
                (namespace0 env) EmptyString (at_code prompt src st)) as Hsub.
  destruct (exec _ _ _ _ _) as [[[t ns] out] st1]. cbn [snd] in Hsub.
  apply sub_calls_counts in Hsub.
  destruct (at_code_inv i prompt src st Hinv) as (Hc & Ho & Hfi & Hg & Hs & Hl).
  destruct Hsub as (Hc' & Ho' & Hf' & Hg' & Hs' & Hl').
  assert (Hgoal : forall o,
    round_inv (S i) (mkState (steps st1 ++ [Step output o])
                             (llm_calls st1) (sent st1))).
  { intros o. unfold round_inv, calls_from in *. cbn [steps llm_calls sent].
    rewrite !count_app, count_one_same.
    rewrite !count_one_other by discriminate. lia. }
  destruct t; inversion Hit; subst; apply Hgoal.
Qed.

Lemma start_inv : round_inv 0 (start q ctx).2.
Proof. repeat split. Qed.

Lemma after_inv (i : nat) (prompt : string) (env : RLMEnvironment)
    (st : RunState) :
  after python self q ctx i = Some (prompt, env, st) -> round_inv i st.
Proof.
  revert prompt env st. induction i as [|i IH]; intros prompt env st.
  - cbn [after]. intros H; inversion H; subst. apply start_inv.
  - cbn [after].
    destruct (after python self q ctx i) as [[[p1 e1] s1]|]; [|discriminate].
    destruct (iteration python self q ctx p1 e1 s1) as [p2 e2 s2| | |] eqn:Hit;
      try discriminate.
    intros H; inversion H; subst.
    eapply iteration_next_inv; [apply (IH p1 e1 s1 eq_refl)|exact Hit].
Qed.

(** Once [i] rounds have gone on, the run is the loop for the remaining
    rounds started from the loop variables reached. *)
Lemma loop_after (i : nat) :
  forall (n : nat) (prompt : string) (env : RLMEnvironment) (st : RunState),
    after python self q ctx i = Some (prompt, env, st) ->
    loop python self q ctx (i + n) (start q ctx).1.1 (start q ctx).1.2
         (start q ctx).2
    = loop python self q ctx n prompt env st.
Proof.
  induction i as [|i IH]; intros n prompt env st.
  - cbn [after]. intros H; inversion H; subst. reflexivity.
  - cbn [after].
    destruct (after python self q ctx i) as [[[p1 e1] s1]|] eqn:Ha;
      [|discriminate].
    destruct (iteration python self q ctx p1 e1 s1) as [p2 e2 s2| | |] eqn:Hit;
      try discriminate.
    intros H; inversion H; subst.
    replace (S i + n) with (i + S n) by lia.
    rewrite (IH (S n) p1 e1 s1 eq_refl). cbn [loop]. by rewrite Hit.
Qed.

Lemma run_after (i n : nat) (prompt : string) (env : RLMEnvironment)
    (st : RunState) :
  Z.to_nat (max_iterations self) = i + n ->
  after python self q ctx i = Some (prompt, env, st) ->
  run_traced python self q ctx = loop python self q ctx n prompt env st.
Proof.
  intros HN Ha. unfold run_traced. rewrite HN.
  rewrite <- (loop_after i n prompt env st Ha). reflexivity.
Qed.

End Rounds.

(* ===================================================================== *)
(** ** The orchestration loop *)
(* ===================================================================== *)

Section Loop.
Import Base.
Import Environment.
Import Engine.
Import Trace.

Variable python : Interp.
Variable self : RLMEngine.
Variables q ctx : string.

Lemma fragment_end_some (k : nat) (t : terminal) :
  fragment_end python self q ctx k = Some t ->
  exists i prompt env st,
    k = S i /\
    after python self q ctx i = Some (prompt, env, st) /\
    round_terminal python self prompt env st = Some t.
Proof.
  destruct k as [|i]; [discriminate|]. cbn [fragment_end].
  destruct (after python self q ctx i) as [[[p e] s]|] eqn:Ha; [|discriminate].
  intros H. by exists i, p, e, s.
Qed.

(** C1. If the [k]-th fragment of a run calls [FINAL(v)], the run returns
    there: the answer is the text of [v], the run is a success, the trace
    holds [k] code Steps, [k - 1] (so at most [k]) output Steps and one
    final Step, which is its last; the client was asked for code [k]
    times, and beside that once for each [llm_call] Step of the trace, so
    no call follows the termination. *)
Theorem final_at_round_k (k : nat) (v : value) :
  (Z.of_nat k <= max_iterations self)%Z ->
  fragment_end python self q ctx k = Some (TFinal v) ->
  exists r : RLMResult,
    run python self q ctx = inl r /\
    let locals := (run_traced python self q ctx).2 in
    final_answer r = str v /\
    success r = true /\
    error r = None /\
    count code (Base.steps r) = k /\
    count output (Base.steps r) = k - 1 /\
    count output (Base.steps r) <= k /\
    count final (Base.steps r) = 1 /\
    (exists before, Base.steps r = before ++ [Step final (str v)]) /\
    calls_from Generation locals = k /\
    calls_from SubQuery locals = count llm_call (Base.steps r) /\
    total_llm_calls r = length (sent locals).
Proof.
  intros Hk Hend.
  destruct (fragment_end_some k _ Hend) as (i & p & env & st & -> & Ha & Ht).
  destruct (round_terminal_some _ _ _ _ _ _ Ht) as (resp & src & Hr & Hf & Hx).
  pose proof (after_inv _ _ _ _ _ _ _ _ Ha) as Hinv.
  assert (HN : Z.to_nat (max_iterations self)
               = i + S (Z.to_nat (max_iterations self) - S i)) by lia.
  unfold run.
  rewrite (run_after python self q ctx i _ p env st HN Ha).
  cbn [loop]. rewrite (iteration_fragment _ _ _ _ _ _ _ _ _ Hr Hf).
  pose proof (exec_sub_calls self (python src (namespace0 env))
                (namespace0 env) EmptyString (at_code p src st)) as Hsub.
  destruct (exec _ _ _ _ _) as [[[t ns] out] st1].
  cbn [fst snd] in Hx, Hsub. subst t.
  eexists. split; [reflexivity|]. cbv zeta.
  apply sub_calls_counts in Hsub.
  destruct (at_code_inv i p src st Hinv) as (Hc & Ho & Hfi & Hg & Hs & Hl).
  destruct Hsub as (Hc' & Ho' & Hf' & Hg' & Hs' & Hl').
  cbn [fst snd final_answer success error Base.steps total_llm_calls Result].
  unfold calls_from in *. cbn [steps llm_calls sent].
  rewrite !count_app, count_one_same.
  rewrite !count_one_other by discriminate.
  repeat split; try lia. by eexists.
Qed.

End Loop.

Lemma final_at_round_k_witness :
  (Z.of_nat 2 <= Engine.max_iterations Demo.two_rounds)%Z /\
  Engine.fragment_end Demo.demo_python Demo.two_rounds "q" "ctx" 2
    = Some (Environment.TFinal (Environment.VStr "42")) /\
  exists r : Base.RLMResult,
    Engine.run Demo.demo_python Demo.two_rounds "q" "ctx" = inl r /\
    Base.final_answer r = "42" /\
    Base.count Base.code (Base.steps r) = 2.
Proof.
  assert (H1 : (Z.of_nat 2 <= Engine.max_iterations Demo.two_rounds)%Z)
    by (vm_compute; discriminate).
  assert (H2 : Engine.fragment_end Demo.demo_python Demo.two_rounds "q" "ctx" 2
               = Some (Environment.TFinal (Environment.VStr "42")))
    by (vm_compute; reflexivity).
  pose proof (final_at_round_k Demo.demo_python Demo.two_rounds "q" "ctx" 2
                (Environment.VStr "42") H1 H2) as (r & Hr & H).
  cbv zeta in H. destruct H as (Ha & _ & _ & Hc & _).
  exact (conj H1 (conj H2 (ex_intro _ r (conj Hr (conj Ha Hc))))).
Defined.

Section Budget.
Import Base.
Import Environment.
Import Engine.
Import Trace.

Variable python : Interp.
Variable self : RLMEngine.
Variables q ctx : string.




End Budget.


(* ===================================================================== *)
(** ** Sub-queries *)
(* ===================================================================== *)

Section SubQueries.
Import Base.
Import Environment.
Import Engine.
Import Trace.

Variable self : RLMEngine.

(** C3. A sub-query, that is one run of [llm_callback], the routine
    behind [llm_query], adds exactly one to the call counter and appends
    exactly one Step, of kind [llm_call]; that Step carries the default
    depth 0, the depth of the fragment's own code Step, and not that
    depth plus one. *)
Theorem llm_query_step_depth (prompt : string) (st : RunState) :
  let st' := (llm_callback self prompt st).2 in
  llm_calls st' = S (llm_calls st) /\
  exists s : RLMStep,
    steps st' = steps st ++ [s] /\
    step_type s = llm_call /\
    depth s = 0%Z /\
    depth s = depth (Step code "any fragment").
Proof.
  unfold llm_callback. cbn [snd llm_calls steps].
  split; [reflexivity|]. eexists. split; [reflexivity|]. by repeat split.
Qed.

End SubQueries.

(** The trace of a run of one round whose fragment calls [llm_query]:
    the call is refused, and the refusal is the output of the round. *)
Example llm_query_in_run :
  exists r : Base.RLMResult,
    Engine.run Demo.demo_python (Engine.mkEngine Demo.asks_always 1) "q" "ctx"
      = inl r /\
    map (fun s => (Base.step_type s, Base.content s)) (Base.steps r)
      = [(Base.code, "a = llm_query('hi'); FINAL(a)");
         (Base.output,
          "Error: RuntimeError: This event loop is already running")] /\
    Base.total_llm_calls r = 1.
Proof. eexists. split; [vm_compute; reflexivity|]. by split. Qed.

(* ===================================================================== *)
(** ** The sandbox boundary *)
(* ===================================================================== *)

Section Sandbox.
Import Base.
Import Environment.
Import Engine.
Import Trace.

Variable python : Interp.
Variable self : RLMEngine.
Variables q ctx : string.


End Sandbox.



(* ===================================================================== *)
(** ** Persisted variables *)
(* ===================================================================== *)

Section Persistence.
Import Environment.

(** What [_save_variables] leaves under a name. *)
Lemma save_lookup (ns vars : gmap string value) (name : string) :
  _save_variables ns vars !! name =
  if saved name
  then match ns !! name with Some v => Some v | None => vars !! name end
  else vars !! name.
Proof.
  unfold _save_variables.
  apply (map_fold_weak_ind (fun r (m : gmap string value) =>
    r !! name = if saved name
                then match m !! name with
                     | Some v => Some v
                     | None => vars !! name
                     end
                else vars !! name)).
  - rewrite lookup_empty. by destruct (saved name).
  - intros i x m r Hi IH. destruct (decide (i = name)) as [->|Hne].
    + rewrite lookup_insert_eq.
      destruct (saved name); [by rewrite lookup_insert_eq|exact IH].
    + rewrite (lookup_insert_ne m) by done.
      destruct (saved i); [by rewrite lookup_insert_ne|exact IH].
Qed.

Lemma fixed_bindings_none (env : RLMEnvironment) (name : string) :
  name ∉ fixed_names -> fixed_bindings env !! name = None.
Proof.
  intros Hn. unfold fixed_bindings. apply not_elem_of_list_to_map_1.
  rewrite <- list_fmap_compose. by rewrite list_fmap_id.
Qed.

Lemma saved_true (name : string) :
  name ∉ fixed_names -> Text.startswith "_" name = false -> saved name = true.
Proof.
  intros Hn Hu. unfold saved. rewrite Hu.
  rewrite bool_decide_eq_false_2; [reflexivity|].
  unfold skip. rewrite elem_of_app, list_elem_of_singleton.
  intros [H| ->]; [by apply Hn|]. discriminate Hu.
Qed.

(** C6, amended. If a fragment completes normally and a name that is
    neither a fixed binding nor begins with an underscore is bound to [v]
    when it completes, the namespace the next fragment of the run starts
    in binds that name to [v]; a fresh environment binds no such name. *)
Theorem binding_persists {S : Type} (cb : string -> S -> Response * S)
    (python : Interp) (env : RLMEnvironment) (src : string) (st : S)
    (name : string) (v : value) :
  let ran := exec cb (python src (namespace0 env)) (namespace0 env)
                  EmptyString st in
  ran.1.1.1 = TReturn ->
  ran.1.1.2 !! name = Some v ->
  name ∉ fixed_names ->
  Text.startswith "_" name = false ->
  let env' := (execute cb python env src st).1.2 in
  variables env' !! name = Some v /\
  Environment.namespace0 env' !! name = Some v /\
  (forall ctx q, Environment.namespace0 (Environment.new ctx q) !! name = None).
Proof.
  cbv zeta. intros Ht Hv Hn Hu. rewrite execute_cases.
  destruct (exec _ _ _ _ _) as [[[t ns] out] st1]. cbn [fst snd] in *.
  subst t. cbn [fst snd variables].
  assert (Hb : name <> "__builtins__") by (intros ->; discriminate Hu).
  assert (Hs : _save_variables ns (variables env) !! name = Some v)
    by (by rewrite save_lookup, (saved_true _ Hn Hu), Hv).
  split; [exact Hs|]. split.
  - unfold Environment.namespace0, namespace. rewrite lookup_insert_ne by done.
    apply lookup_union_Some_l. exact Hs.
  - intros ctx q. unfold Environment.namespace0, namespace, new.
    rewrite lookup_insert_ne by done. cbn [variables].
    rewrite (left_id_L ∅ (∪)). by apply fixed_bindings_none.
Qed.

(** C10. A fragment that has bound [x] and then calls [FINAL_VAR] on it,
    [x] not having been persisted by an earlier fragment, ends the run
    with the not-found message: the lookup is in the variables persisted
    before the fragment started, and the fragment persists nothing. *)
Theorem final_var_same_fragment (python : Interp) (self : Engine.RLMEngine)
    (q ctx prompt : string) (env : RLMEnvironment) (st : Engine.RunState)
    (response src x : string) (v : value) :
  Engine.llm self (Engine.prompts st) prompt = inl response ->
  Engine.fragment_of response = Some src ->
  let st2 := Engine.at_code prompt src st in
  let ran := exec (Engine.sync_callback self)
                  (python src (Environment.namespace0 env)) (Environment.namespace0 env)
                  EmptyString st2 in
  ran.1.1.1 = TFinalVar x ->
  ran.1.1.2 !! x = Some v ->
  variables env !! x = None ->
  let msg := "Error: Variable '" +:+ x +:+ "' not found" in
  execute (Engine.sync_callback self) python env src st2
    = (Raises (mkFinalAnswer msg), env, ran.2) /\
  exists st',
    Engine.iteration python self q ctx prompt env st
    = Engine.Return
        (Base.Result q (String.length ctx) msg
           (Engine.steps ran.2 ++ [Base.Step Base.final msg])
           (Engine.llm_calls ran.2))
        st'.
Proof.
  cbv zeta. intros Hr Hf Ht Hv Hx.
  rewrite (iteration_fragment _ _ _ _ _ _ _ _ _ Hr Hf), execute_cases.
  destruct (exec _ _ _ _ _) as [[[t ns] out] st1]. cbn [fst snd] in *.
  subst t. unfold _final_var. rewrite Hx. cbn [answer]. split; eauto.
Qed.

End Persistence.

Lemma binding_persists_witness :
  let env := Environment.new "ctx" "q" in
  let env' := (Environment.execute Demo.mute Demo.demo_python env
                 "_tmp = 1; y = 2" tt).1.2 in
  Environment.namespace0 env' !! "y" = Some (Environment.VInt 2).
Proof.
  cbv zeta.
  refine (proj1 (proj2 (binding_persists Demo.mute Demo.demo_python
            (Environment.new "ctx" "q") "_tmp = 1; y = 2" tt "y"
            (Environment.VInt 2) _ _ _ _))).
  - vm_compute. reflexivity.
  - vm_compute. reflexivity.
  - apply (bool_decide_unpack _). vm_compute. exact I.
  - reflexivity.
Defined.

(** C6, as stated, fails twice. A name that begins with an underscore is
    bound when its fragment completes, and is not a fixed binding, yet
    the next namespace does not bind it; and a name bound by a fragment
    that then raises a fault is not bound in the next namespace either. *)
Lemma binding_not_persisted :
  let env := Environment.new "ctx" "q" in
  (let ran := Environment.exec Demo.mute
                (Demo.demo_python "_tmp = 1; y = 2" (Environment.namespace0 env))
                (Environment.namespace0 env) EmptyString tt in
   let env' := (Environment.execute Demo.mute Demo.demo_python env
                  "_tmp = 1; y = 2" tt).1.2 in
   ran.1.1.1 = Environment.TReturn /\
   ran.1.1.2 !! "_tmp" = Some (Environment.VInt 1) /\
   ("_tmp" ∉ Environment.fixed_names) /\
   Environment.namespace0 env' !! "_tmp" = None) /\
  (let ran := Environment.exec Demo.mute
                (Demo.demo_python "z = 3; 1/0" (Environment.namespace0 env))
                (Environment.namespace0 env) EmptyString tt in
   let env' := (Environment.execute Demo.mute Demo.demo_python env
                  "z = 3; 1/0" tt).1.2 in
   ran.1.1.2 !! "z" = Some (Environment.VInt 3) /\
   ("z" ∉ Environment.fixed_names) /\
   Environment.namespace0 env' !! "z" = None).
Proof.
  cbv zeta. repeat split; try (vm_compute; reflexivity);
    apply (bool_decide_unpack _); vm_compute; exact I.
Qed.

Lemma final_var_same_fragment_witness :
  let start := Engine.start "q" "ctx" in
  exists st',
    Engine.iteration Demo.demo_python Demo.bind_and_final_var "q" "ctx"
      start.1.1 start.1.2 start.2
    = Engine.Return
        (Base.Result "q" 3 "Error: Variable 'x' not found"
           [Base.Step Base.code "x = 5; FINAL_VAR('x')";
            Base.Step Base.final "Error: Variable 'x' not found"] 1)
        st'.
Proof.
  cbv zeta.
  exact (proj2 (final_var_same_fragment Demo.demo_python
           Demo.bind_and_final_var "q" "ctx"
           (Engine.start "q" "ctx").1.1 (Engine.start "q" "ctx").1.2
           (Engine.start "q" "ctx").2
           (Demo.tagged "x = 5; FINAL_VAR('x')") "x = 5; FINAL_VAR('x')"
           "x" (Environment.VInt 5) eq_refl eq_refl eq_refl eq_refl eq_refl)).
Defined.

Section FinalVar.
Import Base.
Import Environment.
Import Engine.
Import Trace.

Variable python : Interp.
Variable self : RLMEngine.
Variables q ctx : string.

(** C9. If the [k]-th fragment of a run calls [FINAL_VAR(x)], the run
    returns there with success: the answer is the text of the value
    persisted under [x] by the earlier fragments, or the not-found
    message when nothing is persisted under [x]; the final Step carries
    that answer. [_final_var] has no other way out than its
    [FinalAnswer]. *)
Theorem final_var_answer (k : nat) (x : string) :
  (Z.of_nat k <= max_iterations self)%Z ->
  fragment_end python self q ctx k = Some (TFinalVar x) ->
  exists prompt env st,
    after python self q ctx (k - 1) = Some (prompt, env, st) /\
    exists r : RLMResult,
      run python self q ctx = inl r /\
      let a := match variables env !! x with
               | Some v => str v
               | None => "Error: Variable '" +:+ x +:+ "' not found"
               end in
      answer (_final_var env x) = a /\
      final_answer r = a /\
      success r = true /\
      error r = None /\
      exists before, Base.steps r = before ++ [Step final a].
Proof.
  intros Hk Hend.
  destruct (fragment_end_some _ _ _ _ k _ Hend)
    as (i & p & env & st & -> & Ha & Ht).
  destruct (round_terminal_some _ _ _ _ _ _ Ht) as (resp & src & Hr & Hf & Hx).
  exists p, env, st. replace (S i - 1) with i by lia. split; [exact Ha|].
  assert (HN : Z.to_nat (max_iterations self)
               = i + S (Z.to_nat (max_iterations self) - S i)) by lia.
  unfold run.
  rewrite (run_after python self q ctx i _ p env st HN Ha).
  cbn [loop]. rewrite (iteration_fragment _ _ _ _ _ _ _ _ _ Hr Hf).
  destruct (exec _ _ _ _ _) as [[[t ns] out] st1]. cbn [fst] in Hx. subst t.
  cbv zeta. eexists. split; [reflexivity|].
  cbn [fst final_answer success error Base.steps Result].
  assert (Hans : answer (_final_var env x)
                 = match variables env !! x with
                   | Some v => str v
                   | None => "Error: Variable '" +:+ x +:+ "' not found"
                   end)
    by (unfold _final_var; by destruct (variables env !! x)).
  rewrite Hans. repeat split. by eexists.
Qed.

End FinalVar.

Lemma final_var_answer_witness :
  exists r : Base.RLMResult,
    Engine.run Demo.demo_python Demo.bind_then_final_var "q" "ctx" = inl r /\
    Base.final_answer r = "1".
Proof.
  assert (H1 : (Z.of_nat 2 <= Engine.max_iterations Demo.bind_then_final_var)%Z)
    by (vm_compute; discriminate).
  assert (H2 : Engine.fragment_end Demo.demo_python Demo.bind_then_final_var
                 "q" "ctx" 2 = Some (Environment.TFinalVar "x"))
    by (vm_compute; reflexivity).
  destruct (final_var_answer Demo.demo_python Demo.bind_then_final_var
              "q" "ctx" 2 "x" H1 H2) as (p & env & st & Ha & r & Hrun & H).
  cbv zeta in H. destruct H as (_ & Hans & _).
  exists r. split; [exact Hrun|].
  rewrite Hans. vm_compute in Ha. injection Ha as _ <- _.
  vm_compute. reflexivity.
Defined.

(* ===================================================================== *)
(** ** Responses without code *)
(* ===================================================================== *)

Section Extraction.
Import Base.
Import Environment.
Import Engine.
Import Trace.

Lemma strip_prefix_some (p s rest : string) :
  Text.strip_prefix p s = Some rest -> s = p +:+ rest.
Proof.
  revert s. induction p as [|a p IH]; intros s; cbn [Text.strip_prefix].
  - by intros [= ->].
  - destruct s as [|b s]; [discriminate|].
    destruct (Ascii.eqb a b) eqn:Hab; [|discriminate].
    apply Ascii.eqb_eq in Hab. subst b. intros H.
    by rewrite (IH s H).
Qed.

Lemma find_some (pat s a b : string) :
  Text.find pat s = Some (a, b) -> s = a +:+ pat +:+ b.
Proof.
  revert a. induction s as [|c s IH]; intros a.
  - cbn [Text.find].
    destruct (Text.strip_prefix pat EmptyString) as [rest|] eqn:Hp;
      [|discriminate].
    intros [= <- <-]. apply (strip_prefix_some pat _ rest Hp).
  - cbn [Text.find].
    destruct (Text.strip_prefix pat (String c s)) as [rest|] eqn:Hp.
    + intros [= <- <-]. apply (strip_prefix_some pat _ rest Hp).
    + destruct (Text.find pat s) as [[a' b']|]; [|discriminate].
      intros [= <- <-]. by rewrite (IH a' eq_refl).
Qed.

(** Plain prose yields no fragment. *)
Lemma prose_yields_no_fragment (response : string) :
  no_fence response -> fragment_of response = None.
Proof.
  intros Hno.
  assert (H3 : Text.find "```" response = None).
  { destruct (Text.find "```" response) as [[a b]|] eqn:Hfind; [|done].
    apply find_some in Hfind. by destruct (Hno a b). }
  assert (Hp : Text.find "```python" response = None).
  { destruct (Text.find "```python" response) as [[a b]|] eqn:Hfind; [|done].
    apply find_some in Hfind. by destruct (Hno a ("python" +:+ b)). }
  unfold fragment_of, _extract_code, extract_generic. by rewrite Hp, H3.
Qed.

Variable python : Interp.
Variable self : RLMEngine.
Variables q ctx : string.

(** C8. If, [i] rounds having gone on and the budget allowing one more,
    the response of the client yields no fragment, the run returns at
    once with success: the answer is the whole response, a final Step
    carrying it is appended to the Steps gathered so far, and the call
    that brought the response is the last one made. When this happens
    in the first round, the trace is that final Step alone and the
    client was called exactly once. *)
Theorem no_fragment_is_answer (i : nat) (prompt : string)
    (env : RLMEnvironment) (st : RunState) (response : string) :
  (Z.of_nat i < max_iterations self)%Z ->
  after python self q ctx i = Some (prompt, env, st) ->
  llm self (prompts st) prompt = inl response ->
  fragment_of response = None ->
  exists r : RLMResult,
    run python self q ctx = inl r /\
    let locals := (run_traced python self q ctx).2 in
    r = Result q (String.length ctx) response
          (steps st ++ [Step final response]) (S (llm_calls st)) /\
    success r = true /\
    sent locals = sent st ++ [(Generation, prompt)] /\
    (i = 0 ->
     Base.steps r = [Step final response] /\
     total_llm_calls r = 1 /\
     length (sent locals) = 1).
Proof.
  intros Hi Ha Hr Hf.
  assert (HN : Z.to_nat (max_iterations self)
               = i + S (Z.to_nat (max_iterations self) - S i)) by lia.
  unfold run.
  rewrite (run_after python self q ctx i _ prompt env st HN Ha).
  cbn [loop]. rewrite (iteration_no_fragment _ _ _ _ _ _ _ _ Hr Hf).
  eexists. split; [reflexivity|]. cbv zeta. cbn [fst snd sent].
  split; [reflexivity|]. split; [reflexivity|]. split; [reflexivity|].
  intros ->. cbn [after] in Ha. injection Ha as <- <- <-. by repeat split.
Qed.

End Extraction.

Lemma no_fragment_is_answer_witness :
  exists r : Base.RLMResult,
    Engine.run Demo.demo_python Demo.prose "q" "ctx" = inl r /\
    Base.final_answer r = "The document is about tea." /\
    Base.total_llm_calls r = 1 /\
    length (Engine.sent
              (Engine.run_traced Demo.demo_python Demo.prose "q" "ctx").2) = 1.
Proof.
  assert (H1 : (Z.of_nat 0 < Engine.max_iterations Demo.prose)%Z)
    by (vm_compute; reflexivity).
  pose proof (no_fragment_is_answer Demo.demo_python Demo.prose "q" "ctx" 0
                (Engine.start "q" "ctx").1.1 (Engine.start "q" "ctx").1.2
                (Engine.start "q" "ctx").2 "The document is about tea."
                H1 eq_refl eq_refl eq_refl) as (r & Hrun & H).
  cbv zeta in H. destruct H as (Hres & _ & _ & H0).
  destruct (H0 eq_refl) as (_ & Hc & Hl).
  exists r. split; [exact Hrun|]. split; [by rewrite Hres|].
  exact (conj Hc Hl).
Defined.

(* ===================================================================== *)
(** ** The splitter *)
(* ===================================================================== *)

(** C7. On two paragraphs of four characters and a chunk size of eight,
    neither paragraph exceeds the chunk size, yet [_split] gives one
    chunk of ten characters: the test that decides whether a paragraph
    still fits adds the lengths of the chunk and of the paragraph and
    leaves out the separator that joins them. *)
Theorem split_chunk_exceeds_chunk_size :
  let text := "aaaa" +:+ Summarizer.sep +:+ "bbbb" in
  Text.split Summarizer.sep text = ["aaaa"; "bbbb"] /\
  Forall (fun para => (Z.of_nat (String.length para) <= 8)%Z)
         (Text.split Summarizer.sep text) /\
  Summarizer._split 8 text = [text] /\
  Forall (fun chunk => (Z.of_nat (String.length chunk) > 8)%Z)
         (Summarizer._split 8 text).
Proof.
  cbv zeta. repeat split; vm_compute; repeat constructor; discriminate.
Qed.

(* ===================================================================== *)
(** ** The model on small inputs *)
(* ===================================================================== *)

(** A tagged block wins, and its body is stripped. *)
Example extract_tagged :
  Engine._extract_code (Demo.tagged "x = 1; print(x)") = Some "x = 1; print(x)".
Proof. reflexivity. Qed.

(** An empty tagged block is returned as the empty text, which the loop
    treats like no code at all. *)
Example extract_empty_tagged :
  Engine._extract_code "``` x = 1 ``` then ```python```" = Some EmptyString.
Proof. reflexivity. Qed.

(** A generic block is kept only when it holds a keyword. *)
Example extract_generic_keyword :
  Engine._extract_code "``` x = 1 ```" = Some "x = 1" /\
  Engine._extract_code "``` hello ```" = None.
Proof. split; reflexivity. Qed.

(** The example of the specification: a lone [FINAL] with the text 42. *)
Example lone_final :
  exists r : Base.RLMResult,
    Engine.run Demo.demo_python
      (Engine.mkEngine
         (Demo.constant (inl (Demo.tagged Demo.code_final_42))) 3)
      "q" "ctx" = inl r /\
    Base.final_answer r = "42" /\
    map Base.step_type (Base.steps r) = [Base.code; Base.final] /\
    Base.total_llm_calls r = 1.
Proof. eexists. split; [vm_compute; reflexivity|]. by repeat split. Qed.

(** A paragraph longer than the chunk size comes out whole and alone. *)
Example split_long_paragraph :
  Summarizer._split 3
    ("ab" +:+ Summarizer.sep +:+ "cdefgh" +:+ Summarizer.sep +:+ "i")
  = ["ab"; "cdefgh"; "i"].
Proof. reflexivity. Qed.

(* ===================================================================== *)
(** ** Further properties of the loop *)
(* ===================================================================== *)

Section Abort.
Import Base.
Import Environment.
Import Engine.
Import Trace.

Variable python : Interp.
Variable self : RLMEngine.
Variables q ctx : string.

(** A fault of the client on a request for code ends the run at once: a
    failure whose error is the message of the fault, whose answer wraps
    that message, and which keeps the Steps gathered so far; the failed
    call is counted and is the last one made. *)
Theorem generation_fault_aborts (i : nat) (prompt : string)
    (env : RLMEnvironment) (st : RunState) (kind msg : string) :
  (Z.of_nat i < max_iterations self)%Z ->
  after python self q ctx i = Some (prompt, env, st) ->
  llm self (prompts st) prompt = inr (kind, msg) ->
  run python self q ctx
    = inl (mkResult q (String.length ctx) ("[Error: " +:+ msg +:+ "]")
             (steps st) (S (llm_calls st)) false (Some msg)) /\
  sent (run_traced python self q ctx).2 = sent st ++ [(Generation, prompt)].
Proof.
  intros Hi Ha Hr.
  assert (HN : Z.to_nat (max_iterations self)
               = i + S (Z.to_nat (max_iterations self) - S i)) by lia.
  unfold run. rewrite (run_after python self q ctx i _ prompt env st HN Ha).
  cbn [loop]. unfold iteration. rewrite Hr. by split.
Qed.

(** With a budget of zero rounds or less the run returns the
    budget-exhausted failure without asking the client anything and
    without any Step. *)
Theorem no_budget_no_call :
  (max_iterations self <= 0)%Z ->
  run_traced python self q ctx
    = (inl (mkResult q (String.length ctx)
              "[Reached max iterations without final answer]" [] 0 false
              (Some "Max iterations reached")),
       mkState [] 0 []).
Proof.
  intros Hle. unfold run_traced.
  replace (Z.to_nat (max_iterations self)) with 0 by lia. reflexivity.
Qed.

End Abort.

Lemma generation_fault_aborts_witness :
  exists r : Base.RLMResult,
    Engine.run Demo.demo_python Demo.fails_second "q" "ctx" = inl r /\
    Base.success r = false /\
    Base.error r = Some "Ollama error: model not found" /\
    Base.final_answer r = "[Error: Ollama error: model not found]" /\
    map Base.step_type (Base.steps r) = [Base.code; Base.output] /\
    Base.total_llm_calls r = 2.
Proof.
  assert (H1 : (Z.of_nat 1 < Engine.max_iterations Demo.fails_second)%Z)
    by (vm_compute; reflexivity).
  assert (Ha : exists pes,
             Engine.after Demo.demo_python Demo.fails_second "q" "ctx" 1
             = Some pes) by (vm_compute; eauto).
  destruct Ha as [[[p e] s] Ha].
  assert (Hr : Engine.llm Demo.fails_second (Engine.prompts s) p
               = inr ("ValueError", "Ollama error: model not found")).
  { vm_compute in Ha. injection Ha as <- _ <-. reflexivity. }
  destruct (generation_fault_aborts Demo.demo_python Demo.fails_second
              "q" "ctx" 1 p e s _ _ H1 Ha Hr) as [Hrun _].
  eexists. split; [exact Hrun|].
  cbn [Base.success Base.error Base.final_answer Base.steps
       Base.total_llm_calls].
  vm_compute in Ha. injection Ha as _ _ <-. repeat split.
Defined.

Lemma no_budget_no_call_witness :
  exists r : Base.RLMResult,
    Engine.run Demo.demo_python Demo.no_budget "q" "ctx" = inl r /\
    Base.total_llm_calls r = 0.
Proof.
  unfold Engine.run.
  rewrite (no_budget_no_call Demo.demo_python Demo.no_budget "q" "ctx");
    [eexists; split; reflexivity | vm_compute; discriminate].
Defined.

Section Shape.
Import Base.
Import Environment.
Import Engine.
Import Trace.

Variable python : Interp.
Variable self : RLMEngine.
Variables q ctx : string.

(** What holds of the locals however the loop ends, and of the result
    when it returns one, [n] rounds being left after [i] rounds that
    went on. *)
Lemma loop_shape (n : nat) :
  forall (i : nat) (prompt : string) (env : RLMEnvironment) (st : RunState),
    round_inv i st ->
    let st' := (loop python self q ctx n prompt env st).2 in
    llm_calls st' = length (sent st') /\
    calls_from SubQuery st' = count llm_call (steps st') /\
    calls_from Generation st' <= i + n /\
    count code (steps st') <= calls_from Generation st' /\
    count output (steps st') <= count code (steps st') /\
    count code (steps st') <= count output (steps st') + 1 /\
    match (loop python self q ctx n prompt env st).1 with
    | inl r =>
        Base.steps r = steps st' /\
        total_llm_calls r = llm_calls st' /\
        (if success r
         then error r = None /\ count final (steps st') = 1 /\
              last (steps st') = Some (Step final (final_answer r))
         else (exists msg, error r = Some msg) /\
              count final (steps st') = 0)
    | inr _ => count final (steps st') = 0
    end.
Proof.
  induction n as [|n IH]; intros i prompt env st Hinv; cbv zeta.
  - destruct Hinv as (Hc & Ho & Hf & Hg & Hs & Hl).
    cbn [loop fst snd Base.steps total_llm_calls success error].
    repeat split; try lia; try done. by eexists.
  - cbn [loop].
    destruct (llm self (prompts st) prompt) as [response|[kind msg]] eqn:Hr.
    + destruct (fragment_of response) as [src|] eqn:Hfr.
      * pose proof (iteration_next_inv python self q ctx i prompt env st) as Hn.
        rewrite (iteration_fragment _ _ _ _ _ _ _ _ _ Hr Hfr) in Hn |- *.
        pose proof (exec_sub_calls self (python src (namespace0 env))
                      (namespace0 env) EmptyString (at_code prompt src st))
          as Hsub.
        destruct (exec _ _ _ _ _) as [[[t ns] out] st1]. cbn [snd] in Hsub.
        apply sub_calls_counts in Hsub.
        destruct (at_code_inv i prompt src st Hinv)
          as (Hc & Ho & Hfi & Hg & Hs & Hl).
        destruct Hsub as (Hc' & Ho' & Hf' & Hg' & Hs' & Hl').
        assert (Hret : forall a,
          let stf := mkState (steps st1 ++ [Step final a])
                             (llm_calls st1) (sent st1) in
          llm_calls stf = length (sent stf) /\
          calls_from SubQuery stf = count llm_call (steps stf) /\
          calls_from Generation stf <= i + S n /\
          count code (steps stf) <= calls_from Generation stf /\
          count output (steps stf) <= count code (steps stf) /\
          count code (steps stf) <= count output (steps stf) + 1 /\
          count final (steps stf) = 1 /\
          last (steps stf) = Some (Step final a)).
        { intros a. cbv zeta. unfold calls_from in *.
          cbn [steps llm_calls sent].
          rewrite !count_app, count_one_same, last_snoc.
          rewrite !count_one_other by discriminate.
          repeat split; try lia. }
        destruct t as [|v|x|kind desc|kind desc].
        -- specialize (Hn _ _ _ Hinv eq_refl).
           replace (i + S n) with (S i + n) by lia.
           apply (IH (S i)). exact Hn.
        -- specialize (Hret (str v)). cbv zeta in Hret.
           cbn [fst snd Base.steps total_llm_calls success error final_answer
                Result steps llm_calls sent] in *.
           destruct Hret as (? & ? & ? & ? & ? & ? & ? & ?).
           repeat split; assumption.
        -- specialize (Hret (answer (_final_var env x))). cbv zeta in Hret.
           cbn [fst snd Base.steps total_llm_calls success error final_answer
                Result steps llm_calls sent] in *.
           destruct Hret as (? & ? & ? & ? & ? & ? & ? & ?).
           repeat split; assumption.
        -- cbv zeta in Hn. specialize (Hn _ _ _ Hinv eq_refl).
           replace (i + S n) with (S i + n) by lia.
           apply (IH (S i)). exact Hn.
        -- cbn [fst snd]. unfold calls_from in *.
           repeat split; lia.
      * rewrite (iteration_no_fragment _ _ _ _ _ _ _ _ Hr Hfr).
        destruct Hinv as (Hc & Ho & Hf & Hg & Hs & Hl).
        cbn [fst snd Base.steps total_llm_calls success error final_answer
             Result steps llm_calls sent].
        unfold calls_from in *. cbn [steps llm_calls sent].
        rewrite !count_app, count_one_same, last_snoc, !filter_app, !length_app.
        rewrite !count_one_other by discriminate.
        repeat first [rewrite filter_cons_True by done
                     |rewrite filter_cons_False by done].
        cbn [length filter list_filter]. repeat split; try lia.
    + unfold iteration. rewrite Hr.
      destruct Hinv as (Hc & Ho & Hf & Hg & Hs & Hl).
      cbn [fst snd Base.steps total_llm_calls success error final_answer
           steps llm_calls sent].
      unfold calls_from in *. cbn [steps llm_calls sent].
      rewrite !filter_app, !length_app.
      repeat first [rewrite filter_cons_True by done
                     |rewrite filter_cons_False by done].
      cbn [length filter list_filter]. repeat split; try lia. by eexists.
Qed.

End Shape.

Section Ledger.
Import Base.
Import Environment.
Import Engine.
Import Trace.

Variable python : Interp.
Variable self : RLMEngine.
Variables q ctx : string.

Lemma origins_partition (l : list (Origin * string)) :
  length l
  = length (filter (fun c : Origin * string => c.1 = Generation) l)
    + length (filter (fun c : Origin * string => c.1 = SubQuery) l).
Proof.
  induction l as [|[[|] p] l IH]; [reflexivity| |].
  - rewrite filter_cons_True, filter_cons_False by done. simpl. lia.
  - rewrite filter_cons_False, filter_cons_True by done. simpl. lia.
Qed.

(** The locals at the end of a run, and the result when it returns
    one. *)
Lemma run_shape :
  let st' := (run_traced python self q ctx).2 in
  llm_calls st' = length (sent st') /\
  calls_from SubQuery st' = count llm_call (steps st') /\
  calls_from Generation st' <= Z.to_nat (max_iterations self) /\
  count code (steps st') <= calls_from Generation st' /\
  count output (steps st') <= count code (steps st') /\
  count code (steps st') <= count output (steps st') + 1 /\
  match run python self q ctx with
  | inl r =>
      Base.steps r = steps st' /\
      total_llm_calls r = llm_calls st' /\
      (if success r
       then error r = None /\ count final (steps st') = 1 /\
            last (steps st') = Some (Step final (final_answer r))
       else (exists msg, error r = Some msg) /\
            count final (steps st') = 0)
  | inr _ => count final (steps st') = 0
  end.
Proof.
  cbv zeta. unfold run, run_traced.
  destruct (start q ctx) as [[p e] s] eqn:Hs.
  assert (Hinv : round_inv 0 s)
    by (pose proof (start_inv q ctx) as H; by rewrite Hs in H).
  exact (loop_shape python self q ctx (Z.to_nat (max_iterations self))
           0 p e s Hinv).
Qed.

(** Every call of the client is counted, whatever the run does and
    however it ends: the counter is the number of prompts sent, those
    are the requests for code, at most one per round of the budget, and
    the sub-questions, one per [llm_call] Step of the trace; and the
    [total_llm_calls] and the Steps of the result a run returns are
    that counter and that trace. *)
Theorem every_call_counted :
  let locals := (run_traced python self q ctx).2 in
  llm_calls locals = length (sent locals) /\
  llm_calls locals
    = calls_from Generation locals + count llm_call (steps locals) /\
  calls_from SubQuery locals = count llm_call (steps locals) /\
  calls_from Generation locals <= Z.to_nat (max_iterations self) /\
  forall r : RLMResult,
    run python self q ctx = inl r ->
    total_llm_calls r = length (sent locals) /\
    total_llm_calls r
      = calls_from Generation locals + count llm_call (Base.steps r) /\
    calls_from SubQuery locals = count llm_call (Base.steps r).
Proof.
  pose proof run_shape as H. cbv zeta in H |- *.
  destruct H as (Hlen & Hsub & Hgen & _ & _ & _ & Hres).
  assert (Hsum : llm_calls (run_traced python self q ctx).2
                 = calls_from Generation (run_traced python self q ctx).2
                   + count llm_call (steps (run_traced python self q ctx).2)).
  { rewrite Hlen, <- Hsub. apply origins_partition. }
  split; [exact Hlen|]. split; [exact Hsum|]. split; [exact Hsub|].
  split; [exact Hgen|].
  intros r Hrun. rewrite Hrun in Hres. destruct Hres as (Hst & Htot & _).
  rewrite Hst, Htot. by repeat split.
Qed.

(** A run has at most one final Step. A run that returns has one
    exactly when it is a success, and then that Step is the last of the
    trace, carries the answer, and no error is reported; a run that is
    not a success reports an error and has no final Step; nor has a run
    that an exception leaves. *)
Theorem final_step_iff_success :
  let locals := (run_traced python self q ctx).2 in
  count final (steps locals) <= 1 /\
  (forall r : RLMResult,
     run python self q ctx = inl r ->
     count final (Base.steps r) <= 1 /\
     (success r = true <-> count final (Base.steps r) = 1) /\
     (success r = true <-> error r = None) /\
     (success r = true ->
      last (Base.steps r) = Some (Step final (final_answer r)))) /\
  (forall e : Fault,
     run python self q ctx = inr e -> count final (steps locals) = 0).
Proof.
  pose proof run_shape as H. cbv zeta in H |- *.
  destruct H as (_ & _ & _ & _ & _ & _ & Hres).
  destruct (run python self q ctx) as [r|e].
  - destruct Hres as (Hst & _ & Hfin). rewrite <- Hst.
    assert (Hr : count final (Base.steps r) <= 1 /\
                 (success r = true <-> count final (Base.steps r) = 1) /\
                 (success r = true <-> error r = None) /\
                 (success r = true ->
                  last (Base.steps r) = Some (Step final (final_answer r)))).
    { rewrite Hst. destruct (success r).
      - destruct Hfin as (He & Hf & Hl). rewrite Hf, He. by repeat split.
      - destruct Hfin as ([msg He] & Hf). rewrite Hf, He.
        repeat split; try lia; discriminate. }
    split; [exact (proj1 Hr)|]. split; [|discriminate].
    by intros r' [= <-].
  - rewrite Hres. split; [lia|]. split; [discriminate|done].
Qed.

(** In every run each output Step answers a code Step: there are as many
    output Steps as code Steps, or one less (the last fragment ended the
    run), and never more code Steps than rounds in the budget; so it is
    in the result a run returns. *)
Theorem code_and_output_steps :
  let locals := (run_traced python self q ctx).2 in
  count output (steps locals) <= count code (steps locals) /\
  count code (steps locals) <= count output (steps locals) + 1 /\
  count code (steps locals) <= Z.to_nat (max_iterations self) /\
  forall r : RLMResult,
    run python self q ctx = inl r ->
    count output (Base.steps r) <= count code (Base.steps r) /\
    count code (Base.steps r) <= count output (Base.steps r) + 1 /\
    count code (Base.steps r) <= Z.to_nat (max_iterations self).
Proof.
  pose proof run_shape as H. cbv zeta in H |- *.
  destruct H as (_ & _ & Hg & Hc & Ho & Ho' & Hres).
  split; [exact Ho|]. split; [exact Ho'|]. split; [lia|].
  intros r Hrun. rewrite Hrun in Hres. destruct Hres as (Hst & _).
  rewrite Hst. repeat split; lia.
Qed.

End Ledger.

Lemma every_call_counted_witness :
  exists r : Base.RLMResult,
    Engine.run Demo.demo_python Demo.two_rounds "q" "ctx" = inl r /\
    Base.total_llm_calls r
    = length (Engine.sent
                (Engine.run_traced Demo.demo_python Demo.two_rounds
                   "q" "ctx").2).
Proof.
  destruct (Engine.run Demo.demo_python Demo.two_rounds "q" "ctx")
    as [r|e] eqn:Hrun; [|vm_compute in Hrun; discriminate].
  exists r. split; [reflexivity|].
  pose proof (every_call_counted Demo.demo_python Demo.two_rounds "q" "ctx")
    as H.
  cbv zeta in H. destruct H as (_ & _ & _ & _ & H).
  exact (proj1 (H r Hrun)).
Defined.

Lemma final_step_iff_success_witness :
  exists r : Base.RLMResult,
    Engine.run Demo.demo_python Demo.never_done "q" "ctx" = inl r /\
    Base.count Base.final (Base.steps r) <= 1.
Proof.
  destruct (Engine.run Demo.demo_python Demo.never_done "q" "ctx")
    as [r|e] eqn:Hrun; [|vm_compute in Hrun; discriminate].
  exists r. split; [reflexivity|].
  pose proof (final_step_iff_success Demo.demo_python Demo.never_done
                "q" "ctx") as H.
  cbv zeta in H. destruct H as (_ & H & _).
  exact (proj1 (H r Hrun)).
Defined.

Lemma code_and_output_steps_witness :
  exists r : Base.RLMResult,
    Engine.run Demo.demo_python Demo.two_rounds "q" "ctx" = inl r /\
    Base.count Base.output (Base.steps r)
      <= Base.count Base.code (Base.steps r).
Proof.
  destruct (Engine.run Demo.demo_python Demo.two_rounds "q" "ctx")
    as [r|e] eqn:Hrun; [|vm_compute in Hrun; discriminate].
  exists r. split; [reflexivity|].
  pose proof (code_and_output_steps Demo.demo_python Demo.two_rounds
                "q" "ctx") as H.
  cbv zeta in H. destruct H as (_ & _ & _ & H).
  exact (proj1 (H r Hrun)).
Defined.

(* ===================================================================== *)
(** ** The depth of sub-queries *)
(* ===================================================================== *)


Section Depth.
Import Base.
Import Environment.
Import Engine.
Import Trace.

Variable python : Interp.


End Depth.

Section SubQuerySteps.
Import Base.
Import Environment.
Import Engine.
Import Trace.

Variable python : Interp.
Variable self : RLMEngine.
Variables q ctx : string.

Lemma length_take (n : nat) (s : string) : String.length (Text.take n s) <= n.
Proof.
  revert s. induction n as [|n IH]; intros [|c s]; cbn [Text.take String.length];
    try lia. specialize (IH s). lia.
Qed.

Lemma length_append (a b : string) :
  String.length (a +:+ b) = String.length a + String.length b.
Proof. induction a as [|c a IH]; simpl; [reflexivity|by rewrite IH]. Qed.

(** The Step recorded for a sub-question carries the prompt itself when
    it has at most 200 characters, and otherwise its first 200
    characters followed by three dots, so never more than 203
    characters; the client always receives the whole prompt after the
    fixed instruction. *)
Theorem llm_call_step_content (prompt : string) (st : RunState) :
  let st' := (llm_callback self prompt st).2 in
  exists s : RLMStep,
    steps st' = steps st ++ [s] /\
    String.length (content s) <= 203 /\
    (String.length prompt <= 200 -> content s = prompt) /\
    (200 < String.length prompt ->
     content s = Text.take 200 prompt +:+ "...") /\
    sent st' = sent st ++ [(SubQuery, "Answer concisely: " +:+ prompt)].
Proof.
  unfold llm_callback. cbn [snd steps sent]. eexists. split; [reflexivity|].
  cbn [content Step].
  destruct (Nat.ltb_spec 200 (String.length prompt)) as [Hlt|Hle].
  - rewrite length_append. pose proof (length_take 200 prompt).
    cbn [String.length]. repeat split; try lia.
  - repeat split; try lia.
Qed.

(** A fragment that gets to a call of [llm_query] ends there, with the
    refusal of [sync_callback]. *)
Lemma exec_first_query (t : frag) :
  forall (ns : gmap string value) (out : string) (st : RunState) (p : string),
    first_query t = Some p ->
    (exec (sync_callback self) t ns out st).1.1.1
      = TRaise "RuntimeError" already_running.
Proof.
  induction t as [|x v k IH|args k IH|prompt k IH|v|x|kind desc|kind desc];
    intros ns out st p; cbn [first_query exec]; try discriminate.
  - apply IH.
  - apply IH.
  - reflexivity.
Qed.

(** The Steps of kind [llm_call] and the prompts of origin [SubQuery]
    of the locals a round ends with are those it started with. *)
Lemma iteration_no_sub_query (prompt : string)
    (env : RLMEnvironment) (st : RunState) :
  let st' := match iteration python self q ctx prompt env st with
             | Next _ _ s | Return _ s | Throw _ s | Leave _ s => s
             end in
  count llm_call (steps st') = count llm_call (steps st) /\
  calls_from SubQuery st' = calls_from SubQuery st.
Proof.
  cbv zeta.
  destruct (llm self (prompts st) prompt) as [response|e] eqn:Hr.
  - destruct (fragment_of response) as [src|] eqn:Hf.
    + rewrite (iteration_fragment _ _ _ _ _ _ _ _ _ Hr Hf).
      pose proof (exec_locals self (python src (namespace0 env))
                    (namespace0 env) EmptyString (at_code prompt src st))
        as Hst.
      destruct (exec _ _ _ _ _) as [[[t ns] out] st1]. cbn [snd] in Hst.
      subst st1.
      destruct t; cbv zeta; unfold calls_from, at_code;
        cbn [steps llm_calls sent];
        rewrite ?count_app, ?filter_app, ?length_app;
        rewrite ?count_one_other by discriminate;
        rewrite ?filter_cons_False by done;
        cbn [length filter list_filter]; split; lia.
    + rewrite (iteration_no_fragment _ _ _ _ _ _ _ _ Hr Hf).
      unfold calls_from. cbn [steps llm_calls sent].
      rewrite count_app, filter_app, length_app.
      rewrite count_one_other by discriminate.
      rewrite filter_cons_False by done.
      cbn [length filter list_filter]. split; lia.
  - unfold iteration. rewrite Hr. destruct e as [kind msg].
    unfold calls_from. cbn [steps llm_calls sent].
    rewrite filter_app, length_app, filter_cons_False by done.
    cbn [length filter list_filter]. split; lia.
Qed.

Lemma loop_no_sub_query (n : nat) :
  forall (prompt : string) (env : RLMEnvironment) (st : RunState),
    let st' := (loop python self q ctx n prompt env st).2 in
    count llm_call (steps st') = count llm_call (steps st) /\
    calls_from SubQuery st' = calls_from SubQuery st.
Proof.
  induction n as [|n IH]; intros prompt env st; cbv zeta.
  - cbn [loop snd]. by split.
  - cbn [loop].
    pose proof (iteration_no_sub_query prompt env st) as Hit.
    cbv zeta in Hit.
    destruct (iteration python self q ctx prompt env st)
      as [p' e' s'|r s'|[kind msg] s'|e s']; cbn [snd]; try exact Hit.
    destruct (IH p' e' s') as [H1 H2]. destruct Hit as [H3 H4].
    split; congruence.
Qed.

(** A call of [llm_query] from a fragment of a run is refused, whatever
    the fragment did before: it leaves the locals of [run] as they are,
    so that a run records no [llm_call] Step, sends no prompt of a
    sub-query and counts the requests for code only. The fragment ends
    with the [RuntimeError] of the running event loop, that error is
    the output Step of the round, and the loop goes on. *)
Theorem sub_query_is_refused :
  let locals := (run_traced python self q ctx).2 in
  (forall (t : frag) ns out st,
     (exec (sync_callback self) t ns out st).2 = st) /\
  count llm_call (steps locals) = 0 /\
  calls_from SubQuery locals = 0 /\
  llm_calls locals = calls_from Generation locals /\
  forall (prompt : string) (env : RLMEnvironment) (st : RunState)
         (response src p : string),
    llm self (prompts st) prompt = inl response ->
    fragment_of response = Some src ->
    first_query (python src (namespace0 env)) = Some p ->
    let err := "Error: RuntimeError: " +:+ already_running in
    round_terminal python self prompt env st
      = Some (TRaise "RuntimeError" already_running) /\
    exists env',
      iteration python self q ctx prompt env st
      = Next (next_prompt err) env'
          (mkState (steps st ++ [Step code src; Step output err])
                   (S (llm_calls st))
                   (sent st ++ [(Generation, prompt)])).
Proof.
  cbv zeta. split; [intros; apply exec_locals|].
  assert (Hrun : count llm_call (steps (run_traced python self q ctx).2) = 0
                 /\ calls_from SubQuery (run_traced python self q ctx).2 = 0
                 /\ llm_calls (run_traced python self q ctx).2
                    = length (sent (run_traced python self q ctx).2)).
  { unfold run_traced. destruct (start q ctx) as [[p e] s] eqn:Hs.
    assert (Hinv : round_inv 0 s)
      by (pose proof (start_inv q ctx) as H; by rewrite Hs in H).
    pose proof (loop_no_sub_query (Z.to_nat (max_iterations self)) p e s)
      as Hno.
    pose proof (loop_shape python self q ctx (Z.to_nat (max_iterations self))
                  0 p e s Hinv) as Hshape.
    cbv zeta in Hno, Hshape.
    destruct Hno as [Hc Hq]. destruct Hshape as (Hlen & _).
    injection Hs as _ _ <-. rewrite Hc, Hq. by repeat split. }
  destruct Hrun as (Hc & Hq & Hlen).
  split; [exact Hc|]. split; [exact Hq|]. split.
  { rewrite Hlen, (origins_partition (sent _)).
    unfold calls_from in Hq |- *. rewrite Hq. lia. }
  intros prompt env st response src p Hr Hf Hfq.
  pose proof (exec_first_query _ (namespace0 env) EmptyString
                (at_code prompt src st) p Hfq) as Ht.
  pose proof (exec_locals self (python src (namespace0 env)) (namespace0 env)
                EmptyString (at_code prompt src st)) as Hst.
  split.
  - unfold round_terminal. rewrite Hr, Hf. by rewrite Ht.
  - rewrite (iteration_fragment _ _ _ _ _ _ _ _ _ Hr Hf).
    destruct (exec _ _ _ _ _) as [[[t ns] out] st1]. cbn [fst snd] in Ht, Hst.
    subst t st1. cbv zeta. exists env. unfold at_code.
    cbn [steps llm_calls sent]. by rewrite <- app_assoc.
Qed.

End SubQuerySteps.

Lemma sub_query_is_refused_witness :
  Base.count Base.llm_call
    (Engine.steps
       (Engine.run_traced Demo.demo_python_more Demo.asks_later "q" "ctx").2)
    = 0 /\
  exists env',
    Engine.iteration Demo.demo_python_more Demo.asks_later "q" "ctx"
      (Engine.start "q" "ctx").1.1 (Engine.start "q" "ctx").1.2
      (Engine.start "q" "ctx").2
    = Engine.Next
        (Engine.next_prompt
           "Error: RuntimeError: This event loop is already running")
        env'
        (Engine.mkState
           [Base.Step Base.code "n = 3; print(n); a = llm_query('hi')";
            Base.Step Base.output
              "Error: RuntimeError: This event loop is already running"]
           1 [(Engine.Generation, (Engine.start "q" "ctx").1.1)]).
Proof.
  pose proof (sub_query_is_refused Demo.demo_python_more Demo.asks_later
                "q" "ctx") as H.
  cbv zeta in H. destruct H as (_ & Hc & _ & _ & H).
  split; [exact Hc|].
  exact (proj2 (H (Engine.start "q" "ctx").1.1
                  (Engine.start "q" "ctx").1.2 (Engine.start "q" "ctx").2
                  (Demo.tagged "n = 3; print(n); a = llm_query('hi')")
                  "n = 3; print(n); a = llm_query('hi')" "hi"
                  eq_refl eq_refl eq_refl)).
Defined.

(* ===================================================================== *)
(** ** Further properties of the sandbox *)
(* ===================================================================== *)

Section Store.
Import Environment.

Lemma fixed_not_saved (name : string) :
  name ∈ fixed_names -> saved name = false.
Proof.
  intros Hin. unfold saved. rewrite bool_decide_eq_true_2; [reflexivity|].
  unfold skip. rewrite elem_of_app. by left.
Qed.

Lemma fixed_bindings_some (env : RLMEnvironment) (name : string) :
  name ∈ fixed_names ->
  fixed_bindings env !! name = Some (fixed_value env name).
Proof.
  intros Hin. unfold fixed_bindings. apply elem_of_list_to_map_1.
  - apply (bool_decide_unpack _). vm_compute. exact I.
  - apply list_elem_of_In.
    apply (in_map (fun n => (n, fixed_value env n))).
    by apply list_elem_of_In.
Qed.

(** Whatever a fragment does, [execute] keeps the document and the
    question of the environment and drops no persisted name (a later
    fragment may only rebind it). Unless the fragment runs to its end,
    no name is added either; when it does, the names persisted are
    those persisted before and the names of its final namespace that
    [_save_variables] does not skip. This is about the names that are
    persisted, not about the objects they are bound to. *)
Theorem execute_keeps_store {S : Type} (cb : string -> S -> Response * S)
    (python : Interp) (env : RLMEnvironment) (src : string) (st : S) :
  let ran := exec cb (python src (namespace0 env)) (namespace0 env)
                  EmptyString st in
  let env' := (execute cb python env src st).1.2 in
  context env' = context env /\
  query env' = query env /\
  (forall x, is_Some (variables env !! x) -> is_Some (variables env' !! x)) /\
  (ran.1.1.1 <> TReturn ->
   forall x, is_Some (variables env' !! x) -> is_Some (variables env !! x)) /\
  (ran.1.1.1 = TReturn ->
   forall x, is_Some (variables env' !! x) <->
             is_Some (variables env !! x) \/
             (saved x = true /\ is_Some (ran.1.1.2 !! x))).
Proof.
  cbv zeta. rewrite execute_cases.
  destruct (exec _ _ _ _ _) as [[[t ns] out] st1].
  destruct t; cbn [fst snd context query variables];
    (split; [reflexivity|]); (split; [reflexivity|]);
    (split; [|split]); try done.
  - intros x [v Hv]. rewrite save_lookup, Hv.
    destruct (saved x); [destruct (ns !! x)|]; eauto.
  - intros _ x. rewrite save_lookup.
    destruct (saved x); [destruct (ns !! x) as [w|] eqn:Hw|].
    + split; [intros _; right; split; [reflexivity|by eexists]|by eexists].
    + split; [by left|]. intros [H|[_ [w' Hw']]]; [exact H|discriminate].
    + split; [by left|]. intros [H|[Hs _]]; [exact H|discriminate].
Qed.

(** The variables persisted by [execute] never hold a fixed name or a
    name that begins with an underscore, provided none was held
    before. *)
Lemma execute_store_clean {S : Type} (cb : string -> S -> Response * S)
    (python : Interp) (env : RLMEnvironment) (src : string) (st : S) :
  (forall name, saved name = false -> variables env !! name = None) ->
  forall name, saved name = false ->
    variables (execute cb python env src st).1.2 !! name = None.
Proof.
  intros Hclean name Hn. rewrite execute_cases.
  destruct (exec _ _ _ _ _) as [[[t ns] out] st1].
  destruct t; cbn [fst snd variables]; try by apply Hclean.
  rewrite save_lookup, Hn. by apply Hclean.
Qed.

(** The intended use of [FINAL_VAR]: a fragment that completes with
    [x] bound to [v], [x] being neither a fixed name nor an underscore
    name, followed by a fragment that calls [FINAL_VAR(x)], raises the
    termination signal with the text of [v]. *)
Theorem final_var_after_binding {S : Type} (cb : string -> S -> Response * S)
    (python : Interp) (env : RLMEnvironment) (src1 src2 : string)
    (st : S) (x : string) (v : value) :
  let ran1 := exec cb (python src1 (namespace0 env)) (namespace0 env)
                   EmptyString st in
  let res1 := execute cb python env src1 st in
  let ran2 := exec cb (python src2 (namespace0 res1.1.2))
                   (namespace0 res1.1.2) EmptyString res1.2 in
  ran1.1.1.1 = TReturn ->
  ran1.1.1.2 !! x = Some v ->
  x ∉ fixed_names ->
  Text.startswith "_" x = false ->
  ran2.1.1.1 = TFinalVar x ->
  (execute cb python res1.1.2 src2 res1.2).1.1
    = Raises (mkFinalAnswer (str v)).
Proof.
  cbv zeta. intros Ht1 Hv Hn Hu Ht2.
  rewrite (execute_cases cb python (execute cb python env src1 st).1.2).
  destruct (exec cb (python src2 _) _ _ _) as [[[t2 ns2] out2] st2].
  cbn [fst snd] in Ht2. subst t2. cbn [fst].
  unfold _final_var.
  rewrite execute_cases in *.
  destruct (exec cb (python src1 _) _ _ _) as [[[t1 ns1] out1] st1].
  cbn [fst snd] in *. subst t1. cbn [fst snd variables].
  by rewrite save_lookup, (saved_true _ Hn Hu), Hv.
Qed.

End Store.

Lemma final_var_after_binding_witness :
  let res1 := Environment.execute Demo.mute Demo.demo_python
                (Environment.new "ctx" "q") "x = 1; print(x)" tt in
  (Environment.execute Demo.mute Demo.demo_python res1.1.2
     "FINAL_VAR('x')" res1.2).1.1
  = Environment.Raises (Environment.mkFinalAnswer "1").
Proof.
  cbv zeta.
  refine (final_var_after_binding Demo.mute Demo.demo_python
            (Environment.new "ctx" "q") "x = 1; print(x)" "FINAL_VAR('x')"
            tt "x" (Environment.VInt 1) _ _ _ _ _).
  - vm_compute. reflexivity.
  - vm_compute. reflexivity.
  - apply (bool_decide_unpack _). vm_compute. exact I.
  - reflexivity.
  - vm_compute. reflexivity.
Defined.

Section FixedBindings.
Import Base.
Import Environment.
Import Engine.
Import Trace.

Variable python : Interp.
Variable self : RLMEngine.
Variables q ctx : string.

Lemma after_env (i : nat) (prompt : string) (env : RLMEnvironment)
    (st : RunState) :
  after python self q ctx i = Some (prompt, env, st) ->
  context env = ctx /\ Environment.query env = q /\
  (forall name, saved name = false -> variables env !! name = None).
Proof.
  revert prompt env st. induction i as [|i IH]; intros prompt env st.
  - cbn [after]. intros [= <- <- <-]. by repeat split.
  - cbn [after].
    destruct (after python self q ctx i) as [[[p1 e1] s1]|]; [|discriminate].
    destruct (IH p1 e1 s1 eq_refl) as (Hc & Hq & Hclean).
    destruct (llm self (prompts s1) p1) as [response|e] eqn:Hr;
      [|unfold iteration; rewrite Hr; discriminate].
    destruct (fragment_of response) as [src|] eqn:Hf;
      [|rewrite (iteration_no_fragment _ _ _ _ _ _ _ _ Hr Hf); discriminate].
    rewrite (iteration_fragment _ _ _ _ _ _ _ _ _ Hr Hf).
    destruct (exec _ _ _ _ _) as [[[t ns] out] st1].
    destruct t; try discriminate; cbv zeta; intros [= <- <- <-];
      cbn [context Environment.query variables]; repeat split; try done.
    intros name Hn. rewrite save_lookup, Hn. by apply Hclean.
Qed.

(** Every fragment of a run starts with the fixed names bound as at the
    first round, whatever earlier fragments did to them: [context] is
    the document, [query] is the question, and no persisted variable
    stands in for a fixed name. *)
Theorem fixed_bindings_each_round (i : nat) (prompt : string)
    (env : RLMEnvironment) (st : RunState) :
  after python self q ctx i = Some (prompt, env, st) ->
  namespace0 env !! "context" = Some (VStr ctx) /\
  namespace0 env !! "query" = Some (VStr q) /\
  (forall name, name ∈ fixed_names ->
     namespace0 env !! name = namespace0 (Environment.new ctx q) !! name).
Proof.
  intros Ha. destruct (after_env i prompt env st Ha) as (Hc & Hq & Hclean).
  assert (Hfix : forall name, name ∈ fixed_names ->
            namespace0 env !! name
            = Some (fixed_value (Environment.new ctx q) name)).
  { intros name Hin.
    assert (Hb : "__builtins__" <> name).
    { intros <-. revert Hin. apply (bool_decide_unpack _).
      vm_compute. exact I. }
    unfold namespace0, namespace. rewrite lookup_insert_ne by done.
    rewrite lookup_union_r by (apply Hclean; by apply fixed_not_saved).
    rewrite (fixed_bindings_some env name Hin).
    unfold fixed_value. cbn [context Environment.query new]. by rewrite Hc, Hq. }
  split; [|split].
  - rewrite Hfix; [reflexivity|]. apply (bool_decide_unpack _).
    vm_compute. exact I.
  - rewrite Hfix; [reflexivity|]. apply (bool_decide_unpack _).
    vm_compute. exact I.
  - intros name Hin. rewrite (Hfix name Hin).
    symmetry. unfold namespace0, namespace.
    assert (Hb : "__builtins__" <> name).
    { intros <-. revert Hin. apply (bool_decide_unpack _).
      vm_compute. exact I. }
    rewrite lookup_insert_ne by done. cbn [variables new].
    rewrite (left_id_L ∅ (∪)).
    apply (fixed_bindings_some (Environment.new ctx q) name Hin).
Qed.

End FixedBindings.

Lemma fixed_bindings_each_round_witness :
  exists prompt env st,
    Engine.after Demo.demo_python_rebind Demo.rebinds "q" "ctx" 2
      = Some (prompt, env, st) /\
    Environment.variables env !! "w" = Some (Environment.VInt 7) /\
    Environment.namespace0 env !! "context" = Some (Environment.VStr "ctx").
Proof.
  destruct (Engine.after Demo.demo_python_rebind Demo.rebinds "q" "ctx" 2)
    as [[[p e] s]|] eqn:Ha; [|vm_compute in Ha; discriminate].
  exists p, e, s. split; [reflexivity|]. split.
  - vm_compute in Ha. injection Ha as _ <- _. vm_compute. reflexivity.
  - exact (proj1 (fixed_bindings_each_round Demo.demo_python_rebind
                    Demo.rebinds "q" "ctx" 2 p e s Ha)).
Defined.

(* ===================================================================== *)
(** ** Further properties of the extraction of code *)
(* ===================================================================== *)

Section Stripping.

Lemma append_assoc (a b c : string) : (a +:+ b) +:+ c = a +:+ (b +:+ c).
Proof.
  induction a as [|x a IH]; [reflexivity|].
  change (String x ((a +:+ b) +:+ c) = String x (a +:+ (b +:+ c))).
  by rewrite IH.
Qed.

Lemma append_nil_r (a : string) : a +:+ EmptyString = a.
Proof.
  induction a as [|x a IH]; [reflexivity|].
  change (String x (a +:+ EmptyString) = String x a). by rewrite IH.
Qed.

Lemma rstrip_idem (s : string) : Text.rstrip (Text.rstrip s) = Text.rstrip s.
Proof.
  induction s as [|c s IH]; [reflexivity|]. cbn [Text.rstrip].
  destruct (Text.rstrip s) as [|d r] eqn:Hr.
  - destruct (Text.is_space c) eqn:Hc; [reflexivity|].
    cbn [Text.rstrip]. by rewrite Hc.
  - cbn [Text.rstrip] in *. by rewrite IH.
Qed.

(** A text that is empty or begins with a character other than white
    space. *)
Lemma lstrip_head (s : string) :
  match Text.lstrip s with
  | EmptyString => True
  | String c _ => Text.is_space c = false
  end.
Proof.
  induction s as [|c s IH]; [exact I|]. cbn [Text.lstrip].
  destruct (Text.is_space c) eqn:Hc; [exact IH|exact Hc].
Qed.

Lemma lstrip_rstrip_lstrip (s : string) :
  Text.lstrip (Text.rstrip (Text.lstrip s)) = Text.rstrip (Text.lstrip s).
Proof.
  pose proof (lstrip_head s) as Hh.
  destruct (Text.lstrip s) as [|c t]; [reflexivity|].
  cbn [Text.rstrip].
  destruct (Text.rstrip t); rewrite ?Hh; cbn [Text.lstrip]; by rewrite Hh.
Qed.

(** [strip] does nothing to a text already stripped. *)
Lemma strip_idem (s : string) : Text.strip (Text.strip s) = Text.strip s.
Proof.
  unfold Text.strip. by rewrite lstrip_rstrip_lstrip, rstrip_idem.
Qed.

Lemma lstrip_suffix (s : string) : exists l, s = l +:+ Text.lstrip s.
Proof.
  induction s as [|c s [l IH]]; [by exists EmptyString|]. cbn [Text.lstrip].
  destruct (Text.is_space c).
  - exists (String c l).
    change (String c s = String c (l +:+ Text.lstrip s)). by rewrite <- IH.
  - by exists EmptyString.
Qed.

Lemma rstrip_prefix (s : string) : exists r, s = Text.rstrip s +:+ r.
Proof.
  induction s as [|c s [r IH]]; [by exists EmptyString|]. cbn [Text.rstrip].
  destruct (Text.rstrip s) as [|d t] eqn:Hr.
  - destruct (Text.is_space c).
    + exists (String c s). reflexivity.
    + exists s. reflexivity.
  - exists r. change (String c s = String c (String d t +:+ r)).
    by rewrite <- IH.
Qed.

(** A stripped text sits inside the text it was stripped from. *)
Lemma strip_inside (s : string) :
  exists l r, s = l +:+ Text.strip s +:+ r.
Proof.
  destruct (lstrip_suffix s) as [l Hl].
  destruct (rstrip_prefix (Text.lstrip s)) as [r Hr].
  exists l, r. unfold Text.strip. by rewrite <- Hr.
Qed.

End Stripping.

Section Fences.
Import Engine.

Lemma strip_prefix_app (pat b : string) :
  Text.strip_prefix pat (pat +:+ b) = Some b.
Proof.
  induction pat as [|c pat IH]; [reflexivity|].
  change (Text.strip_prefix (String c pat) (String c (pat +:+ b)) = Some b).
  cbn [Text.strip_prefix]. by rewrite Ascii.eqb_refl.
Qed.

Lemma strip_prefix_mono (pat s r x : string) :
  Text.strip_prefix pat s = Some r ->
  Text.strip_prefix pat (s +:+ x) = Some (r +:+ x).
Proof.
  revert s. induction pat as [|c pat IH]; intros s; cbn [Text.strip_prefix].
  - by intros [= ->].
  - destruct s as [|d s]; [discriminate|].
    change (String d s +:+ x) with (String d (s +:+ x)).
    cbn [Text.strip_prefix].
    destruct (Ascii.eqb c d); [apply IH|discriminate].
Qed.

Lemma strip_prefix_empty (pat : string) :
  pat <> EmptyString -> Text.strip_prefix pat EmptyString = None.
Proof. by destruct pat. Qed.

Lemma find_prefix_hit (pat s r : string) :
  Text.strip_prefix pat s = Some r -> Text.find pat s = Some (EmptyString, r).
Proof. intros H. destruct s; cbn [Text.find]; by rewrite H. Qed.

(** [find] misses no occurrence. *)
Lemma find_none_absent (pat s : string) :
  Text.find pat s = None -> forall a b, s <> a +:+ pat +:+ b.
Proof.
  intros Hnone a b ->. revert Hnone.
  induction a as [|c a IH].
  - change (EmptyString +:+ pat +:+ b) with (pat +:+ b).
    by rewrite (find_prefix_hit _ _ _ (strip_prefix_app pat b)).
  - change (String c a +:+ pat +:+ b) with (String c (a +:+ pat +:+ b)).
    cbn [Text.find].
    destruct (Text.strip_prefix pat (String c (a +:+ pat +:+ b)));
      [discriminate|].
    destruct (Text.find pat (a +:+ pat +:+ b)) as [[x y]|];
      [discriminate|by intros _; apply IH].
Qed.

(** Nothing before the leftmost occurrence holds the pattern. *)
Lemma find_before_none (pat s a b : string) :
  pat <> EmptyString ->
  Text.find pat s = Some (a, b) -> Text.find pat a = None.
Proof.
  intros Hpat. revert a. induction s as [|c s IH]; intros a.
  - cbn [Text.find]. by rewrite strip_prefix_empty.
  - cbn [Text.find].
    destruct (Text.strip_prefix pat (String c s)) as [rest|] eqn:Hp.
    + intros [= <- <-]. cbn [Text.find]. by rewrite strip_prefix_empty.
    + destruct (Text.find pat s) as [[a' b']|] eqn:Hf; [|discriminate].
      intros [= <- <-]. cbn [Text.find]. rewrite (IH a' eq_refl).
      destruct (Text.strip_prefix pat (String c a')) as [r|] eqn:Hp';
        [|reflexivity].
      apply (strip_prefix_mono _ _ _ (pat +:+ b')) in Hp'.
      apply find_some in Hf. subst s.
      change (String c a' +:+ pat +:+ b')
        with (String c (a' +:+ pat +:+ b')) in Hp'.
      congruence.
Qed.

(** A text without the pattern has no part with the pattern. *)
Lemma find_none_inside (pat s l t r : string) :
  Text.find pat s = None -> s = l +:+ t +:+ r -> Text.find pat t = None.
Proof.
  intros Hnone ->.
  destruct (Text.find pat t) as [[a b]|] eqn:Hf; [|reflexivity].
  apply find_some in Hf. subst t.
  destruct (find_none_absent _ _ Hnone (l +:+ a) (b +:+ r)).
  by rewrite !append_assoc.
Qed.

(** The two ways [_extract_code] finds code. *)
Lemma extract_cases (text src : string) :
  _extract_code text = Some src ->
  exists tag pre rest body post,
    (tag = "```python" \/
     tag = "```" /\
     existsb (fun kw => Text.contains kw src) keywords = true) /\
    Text.find tag text = Some (pre, rest) /\
    Text.find "```" (Text.lstrip rest) = Some (body, post) /\
    src = Text.strip body.
Proof.
  assert (Hgen : extract_generic text = Some src ->
    exists tag pre rest body post,
      (tag = "```python" \/
       tag = "```" /\
       existsb (fun kw => Text.contains kw src) keywords = true) /\
      Text.find tag text = Some (pre, rest) /\
      Text.find "```" (Text.lstrip rest) = Some (body, post) /\
      src = Text.strip body).
  { unfold extract_generic.
    destruct (Text.find "```" text) as [[pre rest]|] eqn:H1; [|discriminate].
    destruct (Text.find "```" (Text.lstrip rest)) as [[body post]|] eqn:H2;
      [|discriminate].
    destruct (existsb _ keywords) eqn:Hk; [|discriminate].
    intros [= <-]. exists "```", pre, rest, body, post. auto. }
  unfold _extract_code.
  destruct (Text.find "```python" text) as [[pre rest]|] eqn:H1; [|exact Hgen].
  destruct (Text.find "```" (Text.lstrip rest)) as [[body post]|] eqn:H2;
    [|exact Hgen].
  intros [= <-]. exists "```python", pre, rest, body, post. auto.
Qed.

(** The code handed to the sandbox has no white space at either end:
    stripping it again changes nothing. *)
Theorem extracted_code_is_stripped (text src : string) :
  _extract_code text = Some src -> Text.strip src = src.
Proof.
  intros H. destruct (extract_cases _ _ H)
    as (tag & pre & rest & body & post & _ & _ & _ & ->).
  apply strip_idem.
Qed.

(** Code is only ever taken from between two fences of the response:
    the response reads [pre], a fence, a lead (white space, after the
    tag [python] for a tagged block), a body, a fence, [post]; the code
    is the stripped body, and neither the body nor the code holds a
    fence. *)
Theorem extracted_code_between_fences (text src : string) :
  _extract_code text = Some src ->
  exists pre lead body post,
    text = pre +:+ "```" +:+ lead +:+ body +:+ "```" +:+ post /\
    src = Text.strip body /\
    Text.contains "```" body = false /\
    Text.contains "```" src = false.
Proof.
  intros H. destruct (extract_cases _ _ H)
    as (tag & pre & rest & body & post & Htag & H1 & H2 & ->).
  apply find_some in H1.
  pose proof (find_before_none "```" _ _ _ ltac:(discriminate) H2) as Hb.
  apply find_some in H2.
  destruct (lstrip_suffix rest) as [ws Hws]. rewrite H2 in Hws.
  assert (Hc : Text.find "```" (Text.strip body) = None).
  { destruct (strip_inside body) as (l & r & Hin).
    exact (find_none_inside _ _ _ _ _ Hb Hin). }
  assert (Htext : exists lead,
            text = pre +:+ "```" +:+ lead +:+ body +:+ "```" +:+ post).
  { destruct Htag as [-> | [-> _]].
    - exists ("python" +:+ ws). rewrite H1, Hws.
      change ("```python" +:+ ws +:+ body +:+ "```" +:+ post)
        with ("```" +:+ "python" +:+ ws +:+ body +:+ "```" +:+ post).
      by rewrite (append_assoc "python").
    - exists ws. by rewrite H1, Hws. }
  destruct Htext as [lead Htext].
  exists pre, lead, body, post. unfold Text.contains. by rewrite Hb, Hc.
Qed.

(** Without the tag [python] anywhere in the response, code is only
    taken from a block that holds one of the six keywords. *)
Theorem untagged_code_has_keyword (text src : string) :
  Text.contains "```python" text = false ->
  _extract_code text = Some src ->
  exists kw, In kw keywords /\ Text.contains kw src = true.
Proof.
  intros Hno H. destruct (extract_cases _ _ H)
    as (tag & pre & rest & body & post & Htag & H1 & _ & _).
  destruct Htag as [-> | [_ Hk]].
  - unfold Text.contains in Hno. by rewrite H1 in Hno.
  - apply existsb_exists in Hk. exact Hk.
Qed.

End Fences.

Lemma extracted_code_is_stripped_witness :
  Text.strip "x = 1; print(x)" = "x = 1; print(x)".
Proof.
  exact (extracted_code_is_stripped (Demo.tagged "x = 1; print(x)")
           "x = 1; print(x)" eq_refl).
Defined.

Lemma extracted_code_between_fences_witness :
  exists pre lead body post,
    Demo.tagged "x = 1; print(x)"
      = pre +:+ "```" +:+ lead +:+ body +:+ "```" +:+ post /\
    "x = 1; print(x)" = Text.strip body /\
    Text.contains "```" body = false /\
    Text.contains "```" "x = 1; print(x)" = false.
Proof.
  exact (extracted_code_between_fences (Demo.tagged "x = 1; print(x)")
           "x = 1; print(x)" eq_refl).
Defined.

Lemma untagged_code_has_keyword_witness :
  exists kw, In kw Engine.keywords /\ Text.contains kw "x = 1" = true.
Proof.
  exact (untagged_code_has_keyword "Try ``` x = 1 ``` now" "x = 1"
           eq_refl eq_refl).
Defined.

(* ===================================================================== *)
(** ** Further properties of the splitter and of the summarizer *)
(* ===================================================================== *)

Section SplitJoin.

Lemma split_go_nonempty (sep : string) (s : string) :
  forall skip cur, Text.split_go sep skip cur s <> [].
Proof.
  induction s as [|c s IH]; intros skip cur; cbn [Text.split_go];
    [discriminate|].
  destruct skip; [|apply IH].
  destruct (Text.startswith sep (String c s)); [discriminate|apply IH].
Qed.

Lemma join_cons (sep x : string) (l : list string) :
  l <> [] -> Text.join sep (x :: l) = x +:+ sep +:+ Text.join sep l.
Proof. by destruct l. Qed.

Lemma split_go_skip (sep p rest : string) (cur : list ascii) :
  Text.split_go sep (String.length p) cur (p +:+ rest)
  = Text.split_go sep 0 cur rest.
Proof.
  induction p as [|c p IH]; [reflexivity|].
  change (String c p +:+ rest) with (String c (p +:+ rest)).
  cbn [String.length Text.split_go]. exact IH.
Qed.

Lemma string_of_list_app (l l' : list ascii) :
  string_of_list_ascii (l ++ l')
  = string_of_list_ascii l +:+ string_of_list_ascii l'.
Proof.
  induction l as [|c l IH]; [reflexivity|].
  change (String c (string_of_list_ascii (l ++ l'))
          = String c (string_of_list_ascii l +:+ string_of_list_ascii l')).
  by rewrite IH.
Qed.

Lemma length_strip_prefix (p s r : string) :
  Text.strip_prefix p s = Some r -> String.length r <= String.length s.
Proof.
  intros H. apply strip_prefix_some in H. subst s.
  rewrite length_append. lia.
Qed.

Lemma join_split_go (sep : string) :
  sep <> EmptyString ->
  forall (n : nat) (s : string), String.length s <= n ->
  forall cur,
    Text.join sep (Text.split_go sep 0 cur s)
    = string_of_list_ascii (rev cur) +:+ s.
Proof.
  intros Hsep. induction n as [|n IH]; intros s Hn cur.
  - destruct s; [|simpl in Hn; lia]. cbn [Text.split_go Text.join].
    by rewrite append_nil_r.
  - destruct s as [|c s]; [cbn [Text.split_go Text.join];
                           by rewrite append_nil_r|].
    cbn [Text.split_go]. unfold Text.startswith.
    destruct (Text.strip_prefix sep (String c s)) as [rest|] eqn:Hp.
    + pose proof (length_strip_prefix _ _ _ Hp) as Hlen.
      apply strip_prefix_some in Hp.
      destruct sep as [|a sep']; [done|].
      change (String a sep' +:+ rest) with (String a (sep' +:+ rest)) in Hp.
      injection Hp as -> ->.
      replace (String.length (String a sep') - 1) with (String.length sep')
        by (cbn [String.length]; lia).
      rewrite split_go_skip.
      rewrite join_cons by apply split_go_nonempty.
      cbn [String.length] in Hn, Hlen.
      rewrite (IH rest) by (rewrite length_append in Hn; lia).
      reflexivity.
    + cbn [String.length] in Hn. rewrite (IH s) by lia.
      cbn [rev]. rewrite string_of_list_app, append_assoc. reflexivity.
Qed.

(** Joining the pieces of a split gives the text back. *)
Lemma join_split (sep s : string) :
  sep <> EmptyString -> Text.join sep (Text.split sep s) = s.
Proof.
  intros Hsep. unfold Text.split.
  by rewrite (join_split_go sep Hsep (String.length s) s).
Qed.

End SplitJoin.

Section Splitter.
Import Summarizer.

Variable chunk_size : Z.

Lemma length_strip_le (s : string) :
  String.length (Text.strip s) <= String.length s.
Proof.
  destruct (strip_inside s) as (l & r & H).
  rewrite H at 2. rewrite !length_append. lia.
Qed.

Lemma truthy_true (s : string) : truthy s = true -> s <> EmptyString.
Proof. by destruct s. Qed.

Lemma truthy_false (s : string) : truthy s = false -> s = EmptyString.
Proof. by destruct s. Qed.

Lemma add_paragraph_eq (chunks : list string) (current para : string) :
  add_paragraph chunk_size (chunks, current) para
  = if (Z.of_nat (String.length current + String.length para)
        >? chunk_size)%Z
    then ((if truthy current then chunks ++ [Text.strip current] else chunks),
          para)
    else (chunks, if truthy current then current +:+ sep +:+ para else para).
Proof. reflexivity. Qed.

(** The loop of [_split] keeps every chunk either the stripped text of
    one paragraph or within the chunk size plus the separator. *)
Lemma fold_bound (paras : list string) :
  forall (l : list string) (chunks : list string) (current : string),
    incl l paras ->
    Forall (fun c => (exists para, In para paras /\ c = Text.strip para) \/
                     (Z.of_nat (String.length c) <= chunk_size + 2)%Z)
           chunks ->
    (In current paras \/ current = EmptyString \/
     (Z.of_nat (String.length current) <= chunk_size + 2)%Z) ->
    let res := fold_left (add_paragraph chunk_size) l (chunks, current) in
    Forall (fun c => (exists para, In para paras /\ c = Text.strip para) \/
                     (Z.of_nat (String.length c) <= chunk_size + 2)%Z)
           res.1 /\
    (In res.2 paras \/ res.2 = EmptyString \/
     (Z.of_nat (String.length res.2) <= chunk_size + 2)%Z).
Proof.
  induction l as [|para l IH]; intros chunks current Hl Hch Hcur;
    [by split|].
  cbn [fold_left]. rewrite add_paragraph_eq.
  assert (Hpara : In para paras) by (apply Hl; by left).
  assert (Hl' : incl l paras) by (intros x Hx; apply Hl; by right).
  destruct (Z.gtb_spec
              (Z.of_nat (String.length current + String.length para))
              chunk_size) as [Hgt|Hle].
  - apply IH; [exact Hl'| |by left].
    destruct (truthy current) eqn:Ht; [|exact Hch].
    apply Forall_app_2; [exact Hch|]. constructor; [|constructor].
    destruct Hcur as [Hin|[->|Hlen]]; [left; eauto|discriminate|].
    right. pose proof (length_strip_le current). lia.
  - apply IH; [exact Hl'|exact Hch|].
    destruct (truthy current) eqn:Ht; [|by left].
    right; right. rewrite !length_append.
    change (String.length sep) with 2. lia.
Qed.

(** Every chunk of [_split] is the stripped text of a single paragraph,
    or has at most [chunk_size + 2] characters: a chunk of several
    paragraphs exceeds the chunk size by the separator at most, and only
    a paragraph on its own can be longer. *)
Theorem split_chunk_bound (text : string) :
  Forall (fun c =>
            (exists para, In para (Text.split sep text) /\
                          c = Text.strip para) \/
            (Z.of_nat (String.length c) <= chunk_size + 2)%Z)
         (_split chunk_size text).
Proof.
  unfold _split.
  pose proof (fold_bound (Text.split sep text) (Text.split sep text) []
                EmptyString (incl_refl _) (Forall_nil_2 _)
                (or_intror (or_introl eq_refl))) as H.
  cbv zeta in H.
  destruct (fold_left _ _ _) as [chunks current]. cbn [fst snd] in H.
  destruct H as [Hch Hcur].
  destruct (truthy (Text.strip current)) eqn:Ht; [|exact Hch].
  apply Forall_app_2; [exact Hch|]. constructor; [|constructor].
  destruct Hcur as [Hin|[->|Hlen]]; [left; eauto|discriminate|].
  right. pose proof (length_strip_le current). lia.
Qed.

(** The loop of [_split] appends stripped texts only, and makes at most
    one chunk per paragraph. *)
Lemma fold_count :
  forall (l : list string) (chunks : list string) (current : string),
    Forall (fun c => Text.strip c = c) chunks ->
    let res := fold_left (add_paragraph chunk_size) l (chunks, current) in
    Forall (fun c => Text.strip c = c) res.1 /\
    length res.1 + (if truthy res.2 then 1 else 0)
      <= length chunks + (if truthy current then 1 else 0) + length l.
Proof.
  induction l as [|para l IH]; intros chunks current Hch; cbv zeta;
    [cbn [fold_left fst snd length]; split; [exact Hch|lia]|].
  cbn [fold_left length]. rewrite add_paragraph_eq.
  destruct (_ >? _)%Z.
  - destruct (truthy current) eqn:Ht.
    + destruct (IH (chunks ++ [Text.strip current]) para) as [H1 H2].
      { apply Forall_app_2; [exact Hch|].
        constructor; [apply strip_idem|constructor]. }
      split; [exact H1|]. rewrite length_app in H2. cbn [length] in H2.
      destruct (truthy para); lia.
    + destruct (IH chunks para Hch) as [H1 H2].
      split; [exact H1|]. destruct (truthy para); lia.
  - destruct (truthy current) eqn:Ht.
    + destruct (IH chunks (current +:+ sep +:+ para) Hch) as [H1 H2].
      split; [exact H1|]. destruct (truthy (current +:+ sep +:+ para)); lia.
    + destruct (IH chunks para Hch) as [H1 H2].
      split; [exact H1|]. destruct (truthy para); lia.
Qed.

(** The chunks of [_split] are stripped texts, and there are never
    more chunks than paragraphs. *)
Theorem split_chunks_stripped_and_few (text : string) :
  Forall (fun c => Text.strip c = c) (_split chunk_size text) /\
  length (_split chunk_size text) <= length (Text.split sep text).
Proof.
  unfold _split.
  pose proof (fold_count (Text.split sep text) [] EmptyString
                (Forall_nil_2 _)) as H.
  cbv zeta in H.
  destruct (fold_left _ _ _) as [chunks current]. cbn [fst snd] in H.
  destruct H as [Hch Hlen]. cbn [truthy length] in Hlen.
  destruct (truthy (Text.strip current)) eqn:Ht.
  - split.
    + apply Forall_app_2; [exact Hch|].
      constructor; [apply strip_idem|constructor].
    + rewrite length_app. cbn [length].
      assert (Hc : truthy current = true)
        by (destruct current; [discriminate Ht|reflexivity]).
      rewrite Hc in Hlen. lia.
  - split; [exact Hch|]. destruct (truthy current); lia.
Qed.

End Splitter.

Section SmallText.
Import Summarizer.

Variable chunk_size : Z.

Lemma lstrip_space_app (w x : string) :
  Text.lstrip w = EmptyString -> Text.lstrip (w +:+ x) = Text.lstrip x.
Proof.
  induction w as [|c w IH]; [reflexivity|].
  change (String c w +:+ x) with (String c (w +:+ x)). cbn [Text.lstrip].
  destruct (Text.is_space c); [exact IH|discriminate].
Qed.

Lemma length_join_head (p : string) (l : list string) :
  String.length p <= String.length (Text.join sep (p :: l)).
Proof.
  destruct l; [reflexivity|]. rewrite join_cons by discriminate.
  rewrite length_append. lia.
Qed.

Lemma join_merge_head (a b : string) (l : list string) :
  Text.join sep ((a +:+ sep +:+ b) :: l) = Text.join sep (a :: b :: l).
Proof.
  destruct l as [|c l]; [reflexivity|].
  rewrite !(join_cons sep _ (_ :: _)) by discriminate.
  by rewrite !append_assoc.
Qed.

(** On a text that fits the chunk size the loop never closes a chunk:
    it rebuilds the text, short of the white space that empty leading
    paragraphs stood for. *)
Lemma fold_small :
  forall (l : list string) (current w : string),
    Text.lstrip w = EmptyString ->
    (Z.of_nat (String.length (w +:+ Text.join sep (current :: l)))
     <= chunk_size)%Z ->
    exists w' current',
      fold_left (add_paragraph chunk_size) l ([], current) = ([], current') /\
      Text.lstrip w' = EmptyString /\
      w' +:+ current' = w +:+ Text.join sep (current :: l).
Proof.
  induction l as [|para l IH]; intros current w Hw Hlen.
  - by exists w, current.
  - cbn [fold_left]. rewrite add_paragraph_eq.
    assert (Hfit : (Z.of_nat (String.length current + String.length para)
                    >? chunk_size)%Z = false).
    { rewrite Z.gtb_ltb. apply Z.ltb_ge. rewrite length_append in Hlen.
      rewrite join_cons in Hlen by discriminate.
      rewrite !length_append in Hlen.
      pose proof (length_join_head para l). lia. }
    rewrite Hfit. destruct (truthy current) eqn:Ht.
    + destruct (IH (current +:+ sep +:+ para) w Hw) as (w' & c' & H1 & H2 & H3).
      { by rewrite join_merge_head. }
      exists w', c'. by rewrite H1, H3, join_merge_head.
    + apply truthy_false in Ht. subst current.
      assert (Heq : (w +:+ sep) +:+ Text.join sep (para :: l)
                    = w +:+ Text.join sep (EmptyString :: para :: l)).
      { rewrite (join_cons sep EmptyString) by discriminate.
        by rewrite append_assoc. }
      destruct (IH para (w +:+ sep)) as (w' & c' & H1 & H2 & H3).
      { by rewrite lstrip_space_app. }
      { by rewrite Heq. }
      exists w', c'. by rewrite H1, H3, Heq.
Qed.

(** On a text that fits the chunk size the loop of [_split] ends with
    no chunk closed and with a current chunk that strips to the stripped
    text. *)
Lemma small_text_fold (text : string) :
  (Z.of_nat (String.length text) <= chunk_size)%Z ->
  exists current,
    fold_left (add_paragraph chunk_size) (Text.split sep text)
              ([], EmptyString)
    = ([], current) /\
    Text.strip current = Text.strip text.
Proof.
  intros Hlen.
  assert (Hsep : sep <> EmptyString) by discriminate.
  pose proof (join_split sep text Hsep) as Hjoin.
  destruct (Text.split sep text) as [|p1 l] eqn:Hs.
  { exfalso. revert Hs. apply split_go_nonempty. }
  cbn [fold_left]. rewrite add_paragraph_eq.
  assert (Hfit : (Z.of_nat (String.length EmptyString + String.length p1)
                  >? chunk_size)%Z = false).
  { rewrite Z.gtb_ltb. apply Z.ltb_ge. pose proof (length_join_head p1 l).
    rewrite Hjoin in H. cbn [String.length]. lia. }
  rewrite Hfit. cbn [truthy].
  destruct (fold_small l p1 EmptyString eq_refl) as (w' & c' & H1 & H2 & H3).
  { change (EmptyString +:+ Text.join sep (p1 :: l))
      with (Text.join sep (p1 :: l)). by rewrite Hjoin. }
  exists c'. split; [exact H1|].
  change (EmptyString +:+ Text.join sep (p1 :: l))
    with (Text.join sep (p1 :: l)) in H3.
  rewrite Hjoin in H3.
  unfold Text.strip. by rewrite <- H3, lstrip_space_app.
Qed.

(** A text no longer than the chunk size is never cut: [_split] gives
    the stripped text as the only chunk, and no chunk at all when the
    text is blank. *)
Theorem split_small_text (text : string) :
  (Z.of_nat (String.length text) <= chunk_size)%Z ->
  _split chunk_size text
  = if truthy (Text.strip text) then [Text.strip text] else [].
Proof.
  intros Hlen. unfold _split.
  destruct (small_text_fold text Hlen) as (current & Hfold & Hstrip).
  rewrite Hfold, Hstrip. reflexivity.
Qed.

End SmallText.

Lemma split_small_text_witness :
  Summarizer._split 40 ("  One short paragraph. " +:+ Text.nl)
  = ["One short paragraph."].
Proof.
  exact (split_small_text 40 ("  One short paragraph. " +:+ Text.nl)
           ltac:(vm_compute; discriminate)).
Defined.

Section Summaries.
Import Summarizer.
Import Summarize.

Variable llm : Client.

Lemma groups_length_aux (n : nat) :
  forall l : list string, length l <= n ->
    length l <= 3 * length (groups l) /\
    3 * length (groups l) < length l + 3.
Proof.
  induction n as [|n IH]; intros l Hn.
  - destruct l; [cbn; lia|cbn in Hn; lia].
  - destruct l as [|a [|b [|c rest]]]; try (cbn; lia).
    cbn [groups length] in *.
    destruct n as [|[|n]]; try lia.
    assert (Hrest : length rest <= n) by lia.
    assert (Hle : length rest <= S (S n)) by lia.
    destruct (IH rest Hle) as [H1 H2]. lia.
Qed.

(** The number of groups of a pass: a third of the summaries, rounded
    up. *)
Lemma groups_length (l : list string) :
  length l <= 3 * length (groups l) /\ 3 * length (groups l) < length l + 3.
Proof. exact (groups_length_aux (length l) l (le_n _)). Qed.

(** The first loop either answers every chunk, in order, or stops at
    the first fault of the client. *)
Lemma summarize_chunks_spec (chunks : list string) :
  forall history,
    match summarize_chunks llm chunks history with
    | (inl summaries, history') =>
        length summaries = length chunks /\
        history' = history ++ map chunk_prompt chunks
    | (inr e, history') =>
        (exists h p, llm h p = inr e) /\
        length history' <= length history + length chunks
    end.
Proof.
  induction chunks as [|chunk rest IH]; intros history.
  - cbn [summarize_chunks map]. by rewrite app_nil_r.
  - cbn [summarize_chunks]. unfold ask.
    destruct (llm history (chunk_prompt chunk)) as [reply|e] eqn:Hr.
    + specialize (IH (history ++ [chunk_prompt chunk])).
      destruct (summarize_chunks llm rest _) as [[summaries|e] history'].
      * destruct IH as [Hl ->]. cbn [length map].
        rewrite <- app_assoc. by rewrite Hl.
      * destruct IH as [He Hl]. split; [exact He|].
        rewrite length_app in Hl. cbn [length] in *. lia.
    + split; [eauto|]. rewrite length_app. cbn [length]. lia.
Qed.

Lemma combine_spec (gs : list (list string)) :
  forall history,
    match combine llm gs history with
    | (inl combined, history') =>
        length combined = length gs /\
        history' = history ++ map merge_prompt gs
    | (inr e, history') =>
        (exists h p, llm h p = inr e) /\
        length history' <= length history + length gs
    end.
Proof.
  induction gs as [|group rest IH]; intros history.
  - cbn [combine map]. by rewrite app_nil_r.
  - cbn [combine]. unfold ask.
    destruct (llm history (merge_prompt group)) as [merged|e] eqn:Hr.
    + specialize (IH (history ++ [merge_prompt group])).
      destruct (combine llm rest _) as [[combined|e] history'].
      * destruct IH as [Hl ->]. cbn [length map].
        rewrite <- app_assoc. by rewrite Hl.
      * destruct IH as [He Hl]. split; [exact He|].
        rewrite length_app in Hl. cbn [length] in *. lia.
    + split; [eauto|]. rewrite length_app. cbn [length]. lia.
Qed.

(** The merge loop always comes to an end within as many passes as
    there are summaries. It ends with a summary after [k] passes, where
    [k] is the least number with [3 ^ k] at least the number of
    summaries, having made fewer calls than there were summaries; or it
    ends with a fault of the client. *)
Lemma merge_spec (passes : nat) :
  forall (level : nat) (summaries : list string) (history : list string),
    summaries <> [] ->
    length summaries <= passes ->
    exists out history',
      merge llm passes level summaries history = Some (out, history') /\
      length history' + 1 <= length history + length summaries /\
      history `prefix_of` history' /\
      match out with
      | inl (_, level') =>
          exists k, level' = level + k /\
                    length summaries <= 3 ^ k /\
                    (1 <= k -> 3 ^ (k - 1) < length summaries) /\
                    length history <= length history'
      | inr e => exists h p, llm h p = inr e
      end.
Proof.
  induction passes as [|passes IH]; intros level summaries history Hne Hlen.
  - destruct summaries; [done|cbn in Hlen; lia].
  - destruct summaries as [|a [|b rest]]; [done| |].
    + cbn [merge length]. eexists _, _. split; [reflexivity|].
      split; [lia|]. split; [done|]. exists 0. cbn. repeat split; lia.
    + remember (a :: b :: rest) as l eqn:Hl.
      assert (Hn2 : 2 <= length l) by (subst l; cbn; lia).
      assert (Hm : merge llm (S passes) level l history
                   = match combine llm (groups l) history with
                     | (inl combined, history') =>
                         merge llm passes (S level) combined history'
                     | (inr e, history') => Some (inr e, history')
                     end) by (subst l; reflexivity).
      rewrite Hm. clear Hm.
      destruct (groups_length l) as [Hg1 Hg2].
      pose proof (combine_spec (groups l) history) as Hc.
      destruct (combine llm (groups l) history) as [[combined|e] history']
        eqn:Hr.
      * destruct Hc as [Hcl ->].
        destruct (IH (S level) combined (history ++ map merge_prompt (groups l)))
          as (out & h' & Hmerge & Hcalls & Hpre & Hout).
        { destruct combined; [cbn in Hcl; lia|done]. }
        { lia. }
        exists out, h'. split; [exact Hmerge|].
        rewrite length_app, length_map in Hcalls.
        split; [lia|].
        split; [etrans; [|exact Hpre]; by eexists|].
        destruct out as [[s level']|e]; [|exact Hout].
        destruct Hout as (k & -> & Hk1 & Hk2 & Hh).
        rewrite length_app, length_map in Hh.
        exists (S k). rewrite Hcl in *.
        replace (S k - 1) with k by lia.
        rewrite Nat.pow_succ_r'. repeat split; try lia.
        intros _. destruct k as [|k]; [cbn; lia|].
        replace (S k - 1) with k in Hk2 by lia.
        rewrite Nat.pow_succ_r'. specialize (Hk2 ltac:(lia)). lia.
      * destruct Hc as [He Hcl]. exists (inr e), history'.
        split; [reflexivity|]. split; [lia|]. split; [|exact He].
        clear -Hr. revert history history' Hr.
        induction (groups l) as [|g gs IHg]; intros history history' Hr.
        { cbn [combine] in Hr. by injection Hr as _ <-. }
        cbn [combine] in Hr. unfold ask in Hr.
        destruct (llm history (merge_prompt g)) as [m|e'].
        { destruct (combine llm gs (history ++ [merge_prompt g]))
            as [[cmb|e''] h''] eqn:Hc'; [discriminate|].
          injection Hr as -> ->.
          etrans; [|exact (IHg _ _ Hc')]. by eexists. }
        injection Hr as _ <-. by eexists.
Qed.

End Summaries.

Section SummarizeProps.
Import Summarizer.
Import Summarize.

Variable llm : Client.
Variable chunk_size : Z.

(** What [summarize] comes to, for any client and any text. *)
Lemma summarize_spec (text : string) :
  let n := length (_split chunk_size text) in
  exists out history,
    summarize llm chunk_size text = Some (out, history) /\
    length history <= 2 * n - 1 /\
    match out with
    | inl res =>
        chunk_count res = n /\
        (n = 0 -> res = mkSummary "Empty document." 0 0 /\ history = []) /\
        map chunk_prompt (_split chunk_size text) `prefix_of` history /\
        (1 <= n ->
         n <= length history /\
         1 <= levels res /\
         n <= 3 ^ (levels res - 1) /\
         (2 <= levels res -> 3 ^ (levels res - 2) < n))
    | inr e => exists h p, llm h p = inr e
    end.
Proof.
  cbv zeta. unfold summarize.
  destruct (_split chunk_size text) as [|c chunks] eqn:Hs.
  - eexists _, _. split; [reflexivity|]. cbn. repeat split; lia || done.
  - remember (c :: chunks) as l eqn:Hl.
    assert (Hn : 1 <= length l) by (subst l; cbn; lia).
    pose proof (summarize_chunks_spec llm l []) as Hc.
    destruct (summarize_chunks llm l []) as [[summaries|e] history].
    + destruct Hc as [Hlen ->]. cbn [app].
      destruct (merge_spec llm (length l) 1 summaries (map chunk_prompt l))
        as (out & h' & Hm & Hcalls & Hpre & Hout).
      { destruct summaries; [cbn in Hlen; lia|done]. }
      { lia. }
      rewrite Hm. rewrite length_map, Hlen in Hcalls.
      destruct out as [[s level']|e].
      * destruct Hout as (k & -> & Hk1 & Hk2 & Hh).
        rewrite length_map in Hh. rewrite Hlen in *.
        eexists _, _. split; [reflexivity|]. cbn [chunk_count levels].
        split; [lia|]. split; [reflexivity|]. split; [lia|].
        split; [exact Hpre|]. intros _.
        replace (1 + k - 1) with k by lia. repeat split; try lia.
        intros Hk. replace (1 + k - 2) with (k - 1) by lia. apply Hk2. lia.
      * eexists _, _. split; [reflexivity|]. split; [lia|exact Hout].
    + destruct Hc as [He Hlen]. cbn [length] in Hlen.
      eexists _, _. split; [reflexivity|]. split; [lia|exact He].
Qed.

(** [summarize] always comes to an end, after at most twice the number
    of chunks less one calls of the client; it either returns a result
    whose chunk count is the number of chunks of [_split], or lets
    through a fault that the client raised. *)
Theorem summarize_returns (text : string) :
  exists out history,
    summarize llm chunk_size text = Some (out, history) /\
    length history <= 2 * length (_split chunk_size text) - 1 /\
    match out with
    | inl res => chunk_count res = length (_split chunk_size text)
    | inr e => exists h p, llm h p = inr e
    end.
Proof.
  destruct (summarize_spec text) as (out & history & Hs & Hlen & Hout).
  exists out, history. split; [exact Hs|]. split; [exact Hlen|].
  destruct out as [res|e]; [by destruct Hout|exact Hout].
Qed.

(** With a client that answers every call and a text that gives at
    least one chunk, [summarize] returns a result after at least one
    call per chunk and fewer than two calls per chunk. *)
Theorem summarize_call_budget (text : string) :
  (forall h p, exists r, llm h p = inl r) ->
  _split chunk_size text <> [] ->
  exists res history,
    summarize llm chunk_size text = Some (inl res, history) /\
    chunk_count res = length (_split chunk_size text) /\
    chunk_count res <= length history /\
    length history <= 2 * chunk_count res - 1.
Proof.
  intros Hok Hne.
  destruct (summarize_spec text) as (out & history & Hs & Hlen & Hout).
  destruct out as [res|e].
  - destruct Hout as (Hc & _ & _ & Hpos). exists res, history.
    assert (Hn : 1 <= length (_split chunk_size text))
      by (destruct (_split chunk_size text); [done|cbn; lia]).
    destruct (Hpos Hn) as (Hh & _). rewrite Hc. by repeat split.
  - destruct Hout as (h & p & He). destruct (Hok h p) as [r Hr]. congruence.
Qed.

(** With a client that answers every call and a text that gives [n >= 1]
    chunks, the levels of the result are one more than the least [k]
    with [3 ^ k >= n]: three summaries are merged into one at each
    pass. *)
Theorem summarize_levels (text : string) :
  (forall h p, exists r, llm h p = inl r) ->
  _split chunk_size text <> [] ->
  exists res history,
    summarize llm chunk_size text = Some (inl res, history) /\
    1 <= levels res /\
    length (_split chunk_size text) <= 3 ^ (levels res - 1) /\
    (2 <= levels res ->
     3 ^ (levels res - 2) < length (_split chunk_size text)).
Proof.
  intros Hok Hne.
  destruct (summarize_spec text) as (out & history & Hs & Hlen & Hout).
  destruct out as [res|e].
  - destruct Hout as (Hc & _ & _ & Hpos). exists res, history.
    assert (Hn : 1 <= length (_split chunk_size text))
      by (destruct (_split chunk_size text); [done|cbn; lia]).
    destruct (Hpos Hn) as (_ & H1 & H2 & H3). by repeat split.
  - destruct Hout as (h & p & He). destruct (Hok h p) as [r Hr]. congruence.
Qed.

(** A blank text that fits the chunk size is answered with the fixed
    summary, no chunk and no level, without any call of the client. *)
Theorem summarize_blank (text : string) :
  (Z.of_nat (String.length text) <= chunk_size)%Z ->
  Text.strip text = EmptyString ->
  summarize llm chunk_size text
  = Some (inl (mkSummary "Empty document." 0 0), []).
Proof.
  intros Hlen Hblank. unfold summarize, _split.
  destruct (small_text_fold chunk_size text Hlen)
    as (current & Hfold & Hstrip).
  by rewrite Hfold, Hstrip, Hblank.
Qed.

(** A text that fits the chunk size and is not blank takes exactly one
    call of the client, on the stripped text: the result is the
    stripped reply, one chunk, one level; a fault of that call is let
    through. *)
Theorem summarize_single_chunk (text : string) :
  (Z.of_nat (String.length text) <= chunk_size)%Z ->
  Text.strip text <> EmptyString ->
  let prompt := chunk_prompt (Text.strip text) in
  summarize llm chunk_size text
  = Some (match llm [] prompt with
          | inl reply => inl (mkSummary (Text.strip reply) 1 1)
          | inr e => inr e
          end, [prompt]).
Proof.
  intros Hlen Hne. cbv zeta. unfold summarize, _split.
  destruct (small_text_fold chunk_size text Hlen)
    as (current & Hfold & Hstrip).
  rewrite Hfold, Hstrip.
  destruct (Text.strip text) as [|c s] eqn:Hs; [done|].
  cbn [truthy app length summarize_chunks]. unfold ask.
  by destruct (llm [] _).
Qed.

(** Whenever [summarize] returns a result, the client was first asked
    for the summary of each chunk of [_split], once and in order, before
    any merge. *)
Theorem summarize_chunks_first (text : string) (res : SummaryResult)
    (history : list string) :
  summarize llm chunk_size text = Some (inl res, history) ->
  map chunk_prompt (_split chunk_size text) `prefix_of` history.
Proof.
  intros Hs.
  destruct (summarize_spec text) as (out & h & Hs' & _ & Hout).
  rewrite Hs in Hs'. injection Hs' as <- <-. by destruct Hout as (_ & _ & ? & _).
Qed.

End SummarizeProps.

Lemma summarize_call_budget_witness :
  exists res history,
    Summarize.summarize (Demo.constant (inl "Short.")) 8
      ("aaaa" +:+ Summarizer.sep +:+ "bbbbbbb" +:+ Summarizer.sep +:+ "cc")
    = Some (inl res, history) /\
    Summarize.chunk_count res = 3 /\
    length history = 4.
Proof.
  destruct (summarize_call_budget (Demo.constant (inl "Short.")) 8
              ("aaaa" +:+ Summarizer.sep +:+ "bbbbbbb" +:+ Summarizer.sep
               +:+ "cc")
              ltac:(intros h p; eexists; reflexivity)
              ltac:(vm_compute; discriminate))
    as (res & history & Hs & _).
  exists res, history. split; [exact Hs|].
  vm_compute in Hs. injection Hs as <- <-. by split.
Defined.

Lemma summarize_levels_witness :
  exists res history,
    Summarize.summarize (Demo.constant (inl "Short.")) 8
      ("aaaa" +:+ Summarizer.sep +:+ "bbbbbbb" +:+ Summarizer.sep +:+ "cc")
    = Some (inl res, history) /\
    Summarize.levels res = 2.
Proof.
  destruct (summarize_levels (Demo.constant (inl "Short.")) 8
              ("aaaa" +:+ Summarizer.sep +:+ "bbbbbbb" +:+ Summarizer.sep
               +:+ "cc")
              ltac:(intros h p; eexists; reflexivity)
              ltac:(vm_compute; discriminate))
    as (res & history & Hs & _).
  exists res, history. split; [exact Hs|].
  vm_compute in Hs. by injection Hs as <- <-.
Defined.

Lemma summarize_blank_witness :
  Summarize.summarize (Demo.constant (inl "Short.")) 8 ("  " +:+ Text.nl)
  = Some (inl (Summarize.mkSummary "Empty document." 0 0), []).
Proof.
  exact (summarize_blank (Demo.constant (inl "Short.")) 8 ("  " +:+ Text.nl)
           ltac:(vm_compute; discriminate) eq_refl).
Defined.

Lemma summarize_single_chunk_witness :
  Summarize.summarize (Demo.constant (inl " Short. ")) 40 "One paragraph."
  = Some (inl (Summarize.mkSummary "Short." 1 1),
          [Summarize.chunk_prompt "One paragraph."]).
Proof.
  exact (summarize_single_chunk (Demo.constant (inl " Short. ")) 40
           "One paragraph." ltac:(vm_compute; discriminate)
           ltac:(discriminate)).
Defined.

(* ===================================================================== *)
(** ** The trace only grows *)
(* ===================================================================== *)

Section AppendOnly.
Import Base.
Import Environment.
Import Engine.
Import Trace.

Variable python : Interp.
Variable self : RLMEngine.
Variables q ctx : string.

(** Locals that grew out of other locals. *)
Lemma grows_trans (a b c : RunState) :
  steps a `prefix_of` steps b /\ sent a `prefix_of` sent b /\
  llm_calls a <= llm_calls b ->
  steps b `prefix_of` steps c /\ sent b `prefix_of` sent c /\
  llm_calls b <= llm_calls c ->
  steps a `prefix_of` steps c /\ sent a `prefix_of` sent c /\
  llm_calls a <= llm_calls c.
Proof.
  intros (H1 & H2 & H3) (H4 & H5 & H6).
  repeat split; [by etrans|by etrans|lia].
Qed.

Lemma sub_calls_grow (st st' : RunState) :
  sub_calls_only st st' ->
  steps st `prefix_of` steps st' /\ sent st `prefix_of` sent st' /\
  llm_calls st <= llm_calls st'.
Proof.
  intros (s & c & Hs & Hc & _ & _ & _ & Hn).
  rewrite Hs, Hc. repeat split; [by eexists|by eexists|lia].
Qed.

Lemma iteration_grows (prompt : string) (env : RLMEnvironment)
    (st : RunState) :
  let st' := match iteration python self q ctx prompt env st with
             | Next _ _ s | Return _ s | Throw _ s | Leave _ s => s
             end in
  steps st `prefix_of` steps st' /\ sent st `prefix_of` sent st' /\
  llm_calls st <= llm_calls st'.
Proof.
  cbv zeta.
  destruct (llm self (prompts st) prompt) as [response|e] eqn:Hr.
  - destruct (fragment_of response) as [src|] eqn:Hf.
    + rewrite (iteration_fragment _ _ _ _ _ _ _ _ _ Hr Hf).
      pose proof (exec_sub_calls self (python src (namespace0 env))
                    (namespace0 env) EmptyString (at_code prompt src st))
        as Hsub.
      destruct (exec _ _ _ _ _) as [[[t ns] out] st1]. cbn [snd] in Hsub.
      apply sub_calls_grow in Hsub.
      assert (H0 : steps st `prefix_of` steps (at_code prompt src st) /\
                   sent st `prefix_of` sent (at_code prompt src st) /\
                   llm_calls st <= llm_calls (at_code prompt src st)).
      { unfold at_code. cbn [steps sent llm_calls].
        repeat split; [by eexists|by eexists|lia]. }
      pose proof (grows_trans _ _ _ H0 Hsub) as H1.
      assert (H2 : forall s,
        steps st1 `prefix_of`
          steps (mkState (steps st1 ++ [s]) (llm_calls st1) (sent st1)) /\
        sent st1 `prefix_of`
          sent (mkState (steps st1 ++ [s]) (llm_calls st1) (sent st1)) /\
        llm_calls st1
          <= llm_calls (mkState (steps st1 ++ [s]) (llm_calls st1) (sent st1))).
      { intros s. cbn [steps sent llm_calls].
        repeat split; [by eexists|done|lia]. }
      destruct t; cbv zeta; try exact (grows_trans _ _ _ H1 (H2 _)).
      exact H1.
    + rewrite (iteration_no_fragment _ _ _ _ _ _ _ _ Hr Hf).
      cbn [steps sent llm_calls]. repeat split; [by eexists|by eexists|lia].
  - unfold iteration. rewrite Hr. cbn [steps sent llm_calls].
    repeat split; [done|by eexists|lia].
Qed.

Lemma loop_grows (n : nat) :
  forall (prompt : string) (env : RLMEnvironment) (st : RunState),
    let st' := (loop python self q ctx n prompt env st).2 in
    steps st `prefix_of` steps st' /\ sent st `prefix_of` sent st' /\
    llm_calls st <= llm_calls st'.
Proof.
  induction n as [|n IH]; intros prompt env st; cbv zeta.
  - cbn [loop snd]. by repeat split.
  - cbn [loop]. pose proof (iteration_grows prompt env st) as Hit.
    cbv zeta in Hit.
    destruct (iteration python self q ctx prompt env st)
      as [p' e' s'|r s'|[kind msg] s'|e s']; cbn [snd]; try exact Hit.
    exact (grows_trans _ _ _ Hit (IH p' e' s')).
Qed.

(** The trace is append-only: the Steps gathered and the prompts sent
    after any number of rounds of a run are the beginning of the Steps
    and of the prompts at its end, and the call counter never goes
    down; the result the run returns carries those Steps and that
    counter. *)
Theorem trace_append_only (i : nat) (prompt : string)
    (env : RLMEnvironment) (st : RunState) :
  i <= Z.to_nat (max_iterations self) ->
  after python self q ctx i = Some (prompt, env, st) ->
  let locals := (run_traced python self q ctx).2 in
  steps st `prefix_of` steps locals /\
  sent st `prefix_of` sent locals /\
  llm_calls st <= llm_calls locals /\
  forall r : RLMResult,
    run python self q ctx = inl r ->
    steps st `prefix_of` Base.steps r /\
    llm_calls st <= total_llm_calls r.
Proof.
  intros Hi Ha.
  assert (HN : Z.to_nat (max_iterations self)
               = i + (Z.to_nat (max_iterations self) - i)) by lia.
  pose proof (after_inv _ _ _ _ _ _ _ _ Ha) as Hinv.
  pose proof (loop_shape python self q ctx
                (Z.to_nat (max_iterations self) - i) i prompt env st Hinv)
    as Hshape.
  pose proof (loop_grows (Z.to_nat (max_iterations self) - i) prompt env st)
    as (Hs & Hc & Hn).
  cbv zeta in Hshape.
  destruct Hshape as (_ & _ & _ & _ & _ & _ & Hres).
  unfold run. cbv zeta.
  rewrite (run_after python self q ctx i _ prompt env st HN Ha).
  split; [exact Hs|]. split; [exact Hc|]. split; [exact Hn|].
  intros r Hrun. rewrite Hrun in Hres. destruct Hres as (Hst & Htot & _).
  rewrite Hst, Htot. by split.
Qed.

End AppendOnly.

Lemma trace_append_only_witness :
  exists prompt env st r,
    Engine.after Demo.demo_python Demo.two_rounds "q" "ctx" 1
      = Some (prompt, env, st) /\
    Engine.run Demo.demo_python Demo.two_rounds "q" "ctx" = inl r /\
    Engine.steps st `prefix_of` Base.steps r.
Proof.
  destruct (Engine.after Demo.demo_python Demo.two_rounds "q" "ctx" 1)
    as [[[p e] s]|] eqn:Ha; [|vm_compute in Ha; discriminate].
  destruct (Engine.run Demo.demo_python Demo.two_rounds "q" "ctx")
    as [r|f] eqn:Hrun; [|vm_compute in Hrun; discriminate].
  exists p, e, s, r. split; [reflexivity|]. split; [reflexivity|].
  pose proof (trace_append_only Demo.demo_python Demo.two_rounds "q" "ctx"
                1 p e s ltac:(vm_compute; lia) Ha) as H.
  cbv zeta in H. destruct H as (_ & _ & _ & H).
  exact (proj1 (H r Hrun)).
Defined.

Lemma summarize_chunks_first_witness :
  [Summarize.chunk_prompt "aaaa"; Summarize.chunk_prompt "bbbbbbb";
   Summarize.chunk_prompt "cc"]
  `prefix_of`
  [Summarize.chunk_prompt "aaaa"; Summarize.chunk_prompt "bbbbbbb";
   Summarize.chunk_prompt "cc";
   Summarize.merge_prompt ["Short."; "Short."; "Short."]].
Proof.
  exact (summarize_chunks_first (Demo.constant (inl "Short.")) 8
           ("aaaa" +:+ Summarizer.sep +:+ "bbbbbbb" +:+ Summarizer.sep
            +:+ "cc") _ _ eq_refl).
Defined.

Section Feedback.
Import Base.
Import Environment.
Import Engine.
Import Trace.

Variable python : Interp.
Variable self : RLMEngine.
Variables q ctx : string.

(** What the model is shown is what the trace records: after every
    round that went on, the last Step is the output Step of that round,
    and the prompt of the next round is built from the content of that
    Step (the no-output marker standing for an empty content). *)
Theorem prompt_shows_last_output (i : nat) (prompt : string)
    (env : RLMEnvironment) (st : RunState) :
  after python self q ctx (S i) = Some (prompt, env, st) ->
  exists out,
    last (steps st) = Some (Step output out) /\
    prompt = next_prompt out.
Proof.
  cbn [after].
  destruct (after python self q ctx i) as [[[p1 e1] s1]|]; [|discriminate].
  destruct (llm self (prompts s1) p1) as [response|e] eqn:Hr;
    [|unfold iteration; rewrite Hr; discriminate].
  destruct (fragment_of response) as [src|] eqn:Hf;
    [|rewrite (iteration_no_fragment _ _ _ _ _ _ _ _ Hr Hf); discriminate].
  rewrite (iteration_fragment _ _ _ _ _ _ _ _ _ Hr Hf).
  destruct (exec _ _ _ _ _) as [[[t ns] out] st1].
  destruct t; try discriminate; cbv zeta; intros [= <- <- <-];
    eexists; cbn [steps]; by rewrite last_snoc.
Qed.

End Feedback.

Lemma prompt_shows_last_output_witness :
  exists prompt env st,
    Engine.after Demo.demo_python Demo.never_done "q" "ctx" 1
      = Some (prompt, env, st) /\
    prompt
      = Engine.next_prompt "Error: ZeroDivisionError: division by zero".
Proof.
  destruct (Engine.after Demo.demo_python Demo.never_done "q" "ctx" 1)
    as [[[p e] s]|] eqn:Ha; [|vm_compute in Ha; discriminate].
  exists p, e, s. split; [reflexivity|].
  destruct (prompt_shows_last_output Demo.demo_python Demo.never_done
              "q" "ctx" 0 p e s Ha) as (out & Hlast & ->).
  f_equal. vm_compute in Ha. injection Ha as _ _ <-.
  cbn in Hlast. by injection Hlast as <-.
Defined.
